(** * Peak integration of a chromatogram: [python-plots/plot.py]

    The script reads a two-column CSV (retention time in minutes, signal),
    converts the time to seconds, keeps the samples of a fixed time window,
    tracks the smallest signal of the window as the baseline, subtracts it,
    integrates the corrected signal with the trapezoidal rule, prints the
    baseline and the area and plots the full series.

    Python's [float] is IEEE 754 binary64, and so is Rocq's primitive [float]:
    the embedding computes with the very same numbers, including the
    infinities and NaN.  Exceptions are an explicit error result, the module
    level variables of the script are a record threaded through its steps. *)

From Stdlib Require Import List String Ascii ZArith Lia Bool Floats.
From Stdlib Require Import DecimalString.
From Stdlib Require Uint63.
Import ListNotations.

Local Open Scope list_scope.

(** ** Python results: a value or a raised exception *)

Inductive exn : Set := ValueError | IndexError.

Inductive Py (A : Type) : Type :=
| Ok (a : A)
| Raise (e : exn).

Arguments Ok {A} a.
Arguments Raise {A} e.

Definition bind {A B : Type} (c : Py A) (k : A -> Py B) : Py B :=
  match c with
  | Ok a => k a
  | Raise e => Raise e
  end.

Notation "x <- c ;; k" := (bind c (fun x => k))
  (at level 61, c at next level, right associativity).

Definition raises {A : Type} (c : Py A) : Prop := exists e, c = Raise e.

(** [l[i]] on a Python list: a negative index counts from the end, an index
    out of range raises [IndexError]. *)
Definition getitem {A : Type} (l : list A) (i : Z) : Py A :=
  let n := Z.of_nat (List.length l) in
  let j := if (i <? 0)%Z then (i + n)%Z else i in
  if (j <? 0)%Z then Raise IndexError
  else match nth_error l (Z.to_nat j) with
       | Some a => Ok a
       | None => Raise IndexError
       end.

(** ** The module-level variables of the script

    [stdout] collects the printed lines, [figure] the lines drawn on the axes
    (x data, y data); [result] is unbound until the integration step. *)

Record state : Type := mkState {
  baseline : float;
  x_vals : list float;
  y_vals : list float;
  peak_x_vals : list float;
  peak_y_vals : list float;
  result : option float;
  stdout : list string;
  figure : list (list float * list float)
}.

(** Lines 19-25: [baseline = math.inf] and the four empty lists. *)
Definition init : state :=
  {| baseline := infinity; x_vals := []; y_vals := [];
     peak_x_vals := []; peak_y_vals := [];
     result := None; stdout := []; figure := [] |}.

Definition set_baseline (b : float) (st : state) : state :=
  {| baseline := b; x_vals := x_vals st; y_vals := y_vals st;
     peak_x_vals := peak_x_vals st; peak_y_vals := peak_y_vals st;
     result := result st; stdout := stdout st; figure := figure st |}.

Definition append_xy (t s : float) (st : state) : state :=
  {| baseline := baseline st;
     x_vals := x_vals st ++ [t]; y_vals := y_vals st ++ [s];
     peak_x_vals := peak_x_vals st; peak_y_vals := peak_y_vals st;
     result := result st; stdout := stdout st; figure := figure st |}.

Definition append_peak_x (t : float) (st : state) : state :=
  {| baseline := baseline st; x_vals := x_vals st; y_vals := y_vals st;
     peak_x_vals := peak_x_vals st ++ [t]; peak_y_vals := peak_y_vals st;
     result := result st; stdout := stdout st; figure := figure st |}.

Definition append_peak_y (s : float) (st : state) : state :=
  {| baseline := baseline st; x_vals := x_vals st; y_vals := y_vals st;
     peak_x_vals := peak_x_vals st; peak_y_vals := peak_y_vals st ++ [s];
     result := result st; stdout := stdout st; figure := figure st |}.

Definition set_peak_y_vals (l : list float) (st : state) : state :=
  {| baseline := baseline st; x_vals := x_vals st; y_vals := y_vals st;
     peak_x_vals := peak_x_vals st; peak_y_vals := l;
     result := result st; stdout := stdout st; figure := figure st |}.

Definition set_result (r : float) (st : state) : state :=
  {| baseline := baseline st; x_vals := x_vals st; y_vals := y_vals st;
     peak_x_vals := peak_x_vals st; peak_y_vals := peak_y_vals st;
     result := Some r; stdout := stdout st; figure := figure st |}.

Definition print (line : string) (st : state) : state :=
  {| baseline := baseline st; x_vals := x_vals st; y_vals := y_vals st;
     peak_x_vals := peak_x_vals st; peak_y_vals := peak_y_vals st;
     result := result st; stdout := stdout st ++ [line]; figure := figure st |}.

Definition plot (xs ys : list float) (st : state) : state :=
  {| baseline := baseline st; x_vals := x_vals st; y_vals := y_vals st;
     peak_x_vals := peak_x_vals st; peak_y_vals := peak_y_vals st;
     result := result st; stdout := stdout st;
     figure := figure st ++ [(xs, ys)] |}.

(** The Series and the Peak Series of the specification: the two parallel
    lists read as one list of samples. *)
Definition series (st : state) : list (float * float) :=
  combine (x_vals st) (y_vals st).

Definition peak_series (st : state) : list (float * float) :=
  combine (peak_x_vals st) (peak_y_vals st).

(** ** numpy's [trapz], as [scipy.integrate.trapz] calls it on two flat lists *)

Fixpoint zip_with (f : float -> float -> float) (a b : list float) : list float :=
  match a, b with
  | u :: a', v :: b' => f u v :: zip_with f a' b'
  | _, _ => []
  end.

(** [a[1:]] and [a[:-1]]. *)
Definition from_1 (a : list float) : list float := tl a.
Definition upto_last (a : list float) : list float := removelast a.

(** [numpy.diff(a)]: [a[1:] - a[:-1]]. *)
Definition diff (a : list float) : list float :=
  zip_with PrimFloat.sub (from_1 a) (upto_last a).

(** An elementwise operation on two flat arrays: equal lengths pair up, an
    array of length one is stretched, anything else is a [ValueError]. *)
Definition broadcast (f : float -> float -> float) (a b : list float)
  : Py (list float) :=
  if Nat.eqb (List.length a) (List.length b) then Ok (zip_with f a b)
  else match a, b with
       | [u], _ => Ok (map (f u) b)
       | _, [v] => Ok (map (fun w => f w v) a)
       | _, _ => Raise ValueError
       end.

(** [ndarray.sum()] of a flat float64 array, as numpy's [add.reduce] computes
    it: the result starts at the identity [0.0] and the inner loop adds to it
    the pairwise sum of the whole array ([DOUBLE_pairwise_sum] of numpy's
    [loops_utils.h.src], called once on a contiguous array). *)

(** The eight partial sums [r[0]] to [r[7]] of the unrolled loop. *)
Record lanes : Type := mkLanes {
  r0 : float; r1 : float; r2 : float; r3 : float;
  r4 : float; r5 : float; r6 : float; r7 : float
}.

Definition add_lanes (r b : lanes) : lanes :=
  {| r0 := r0 r + r0 b; r1 := r1 r + r1 b; r2 := r2 r + r2 b;
     r3 := r3 r + r3 b; r4 := r4 r + r4 b; r5 := r5 r + r5 b;
     r6 := r6 r + r6 b; r7 := r7 r + r7 b |}%float.

(** [for (i = 8; i < n - (n % 8); i += 8) r[j] += a[i + j]]: the whole blocks
    of eight are added lane by lane; the [n % 8] last elements are left. *)
Fixpoint unrolled (r : lanes) (a : list float) : lanes * list float :=
  match a with
  | b0 :: b1 :: b2 :: b3 :: b4 :: b5 :: b6 :: b7 :: rest =>
      unrolled (add_lanes r (mkLanes b0 b1 b2 b3 b4 b5 b6 b7)) rest
  | _ => (r, a)
  end.

Definition lanes_list (r : lanes) : list float :=
  [r0 r; r1 r; r2 r; r3 r; r4 r; r5 r; r6 r; r7 r].

(** [((r[0] + r[1]) + (r[2] + r[3])) + ((r[4] + r[5]) + (r[6] + r[7]))]. *)
Definition tree (r : lanes) : float :=
  (((r0 r + r1 r) + (r2 r + r3 r)) + ((r4 r + r5 r) + (r6 r + r7 r)))%float.

(** The two branches without recursion: fewer than 8 elements are added to
    [0.] in index order; from 8 elements on the first eight start the lanes,
    the lanes are added as a tree and the elements left are added to that. *)
Definition pairwise_block (a : list float) : float :=
  match a with
  | a0 :: a1 :: a2 :: a3 :: a4 :: a5 :: a6 :: a7 :: rest =>
      let (r, tail) := unrolled (mkLanes a0 a1 a2 a3 a4 a5 a6 a7) rest in
      fold_left PrimFloat.add tail (tree r)
  | _ => fold_left PrimFloat.add a 0%float
  end.

(** Above 128 elements the array is cut in two, the first part of
    [n / 2 - (n / 2) % 8] elements, and the sums of the parts are added.
    Each part is shorter, so a fuel of the length is never used up (see
    [pairwise_sum_unfold]). *)
Fixpoint pairwise_sum_rec (fuel : nat) (a : list float) : float :=
  match fuel with
  | O => pairwise_block a
  | S fuel' =>
      let n := List.length a in
      if (n <=? 128)%nat then pairwise_block a
      else
        let n2 := (n / 2 - (n / 2) mod 8)%nat in
        (pairwise_sum_rec fuel' (firstn n2 a) +
         pairwise_sum_rec fuel' (skipn n2 a))%float
  end.

Definition pairwise_sum (a : list float) : float :=
  pairwise_sum_rec (List.length a) a.

(** [*iop1 += pairwise_sum(...)] on a result that holds [0.0]. *)
Definition np_sum (a : list float) : float :=
  (0 + pairwise_sum a)%float.

(** [trapz(y, x=x)]:
    [d = diff(x); (d * (y[1:] + y[:-1]) / 2.0).sum()]. *)
Definition trapz (y x : list float) : Py float :=
  let d := diff x in
  prod <- broadcast PrimFloat.mul d
            (zip_with PrimFloat.add (from_1 y) (upto_last y)) ;;
  Ok (np_sum (map (fun v => (v / 2)%float) prod)).

(** ** The script *)

(** Lines 15-16.  The script writes the two bounds as integers; a float
    compares with them as with the floats of the same value. *)
Definition PEAK_START_TIME : float := 150%float.
Definition PEAK_END_TIME : float := 300%float.

Section Script.

(** The two conversions the script takes from Python: [float(s)], which
    raises [ValueError] on text that is no number, and the text [print]
    and [format] produce for a float. *)
Variable float_of_string : string -> option float.
Variable float_str : float -> string.

Definition to_float (s : string) : Py float :=
  match float_of_string s with
  | Some v => Ok v
  | None => Raise ValueError
  end.

(** Lines 33-37, the body of the read loop. *)
Definition read_row (row : list string) (st : state) : Py state :=
  c0 <- getitem row 0 ;;
  v0 <- to_float c0 ;;
  let TIME := (v0 * 60)%float in
  c1 <- getitem row 1 ;;
  SIGNAL <- to_float c1 ;;
  Ok (append_xy TIME SIGNAL st).

(** Lines 31-37: [for row in reader]. *)
Fixpoint read_rows (reader : list (list string)) (st : state) : Py state :=
  match reader with
  | [] => Ok st
  | row :: rest => st' <- read_row row st ;; read_rows rest st'
  end.

(** Lines 44-54, the body of the peak loop once [i] is incremented.  The
    two bounds are the constants of lines 15-16 in the script; they are
    arguments here. *)
Definition peak_body (start stop : float) (i : Z) (st : state) : Py state :=
  a <- getitem (x_vals st) i ;;
  if (a <? start)%float then Ok st
  else
    b <- getitem (x_vals st) i ;;
    if (stop <? b)%float then Ok st
    else
      t <- getitem (x_vals st) i ;;
      let st1 := append_peak_x t st in
      SIGNAL <- getitem (y_vals st1) i ;;
      let st2 := if (SIGNAL <? baseline st1)%float
                 then set_baseline SIGNAL st1 else st1 in
      s <- getitem (y_vals st2) i ;;
      Ok (append_peak_y s st2).

(** Lines 41-54: [for y_val in y_vals], with [i] the counter of line 40. *)
Fixpoint peak_loop (start stop : float) (it : list float) (i : Z) (st : state)
  : Py state :=
  match it with
  | [] => Ok st
  | _ :: rest =>
      let i := (i + 1)%Z in
      st' <- peak_body start stop i st ;;
      peak_loop start stop rest i st'
  end.

(** Lines 40-54. *)
Definition derive_peak (start stop : float) (st : state) : Py state :=
  peak_loop start stop (y_vals st) (-1) st.

(** Line 56. *)
Definition print_baseline (st : state) : state :=
  print ("Baseline is " ++ float_str (baseline st))%string st.

(** Line 59. *)
Definition correct (st : state) : state :=
  set_peak_y_vals
    (map (fun y_val => (y_val - baseline st)%float) (peak_y_vals st)) st.

(** Lines 62-63. *)
Definition integrate (st : state) : Py state :=
  r <- trapz (peak_y_vals st) (peak_x_vals st) ;;
  let st1 := set_result r st in
  Ok (print ("Peak area: " ++ float_str r)%string st1).

(** Lines 66-71. *)
Definition render (st : state) : state :=
  plot (x_vals st) (y_vals st) st.

(** The whole script on the rows the CSV reader yields. *)
Definition run (start stop : float) (reader : list (list string)) : Py state :=
  st <- read_rows reader init ;;
  st <- derive_peak start stop st ;;
  let st := print_baseline st in
  let st := correct st in
  st <- integrate st ;;
  Ok (render st).

Definition main (reader : list (list string)) : Py state :=
  run PEAK_START_TIME PEAK_END_TIME reader.

End Script.

(** ** The script's steps as list functions

    What the loops compute, written on whole lists; the lemmas below relate
    them to the loops. *)

(** The test of line 44, negated: the sample is kept. *)
Definition kept (start stop t : float) : bool :=
  negb ((t <? start)%float || (stop <? t)%float).

Definition window (start stop : float) (l : list (float * float))
  : list (float * float) :=
  filter (fun smp => kept start stop (fst smp)) l.

(** Lines 47-54 on one kept sample. *)
Definition take_sample (st : state) (smp : float * float) : state :=
  let st1 := append_peak_x (fst smp) st in
  let st2 := if (snd smp <? baseline st1)%float
             then set_baseline (snd smp) st1 else st1 in
  append_peak_y (snd smp) st2.

(** Lines 51-52 alone. *)
Definition lower (b s : float) : float := if (s <? b)%float then s else b.

(** ** The properties of the specification *)

(** The window of the specification, inclusive on both bounds. *)
Definition in_window (start stop t : float) : bool :=
  ((start <=? t)%float && (t <=? stop)%float)%bool.

(** [m] is a minimum of [l]: a member below every member. *)
Definition is_minimum (m : float) (l : list float) : Prop :=
  In m l /\ forall y, In y l -> (m <=? y)%float = true.

(** The minimum of [l] equals zero, as [min(l) == 0] reads on floats: zero is
    a lower bound and a member compares equal to it. *)
Definition minimum_is_zero (l : list float) : Prop :=
  (exists c, In c l /\ (c =? 0)%float = true) /\
  forall c, In c l -> (0 <=? c)%float = true.

(** The trapezoid between samples [k] and [k+1], and the sum of the
    specification over [k = 0 .. N-2]. *)
Definition trapezoid (t y : list float) (k : nat) : float :=
  ((nth (S k) t 0 - nth k t 0) * (nth k y 0 + nth (S k) y 0) / 2)%float.

Definition trapezoid_sum (t y : list float) : float :=
  fold_left PrimFloat.add
    (map (trapezoid t y) (seq 0 (List.length t - 1))) 0%float.

(** The same trapezoids as a list, and their sum as numpy adds them. *)
Definition trapezoid_terms (t y : list float) : list float :=
  map (trapezoid t y) (seq 0 (List.length t - 1)).

Definition trapezoid_np_sum (t y : list float) : float :=
  np_sum (trapezoid_terms t y).

(** ** One reading of decimal text, for the examples

    [read_float] reads an optional sign followed by [nan], [inf] or a plain
    decimal literal, as Python's [float] does on such text: with at most 15
    digits the integer and the power of ten are exact floats and their
    quotient is the correctly rounded value.  Other text is refused. *)

Definition digit_of (c : ascii) : option Z :=
  let n := nat_of_ascii c in
  if ((48 <=? n)%nat && (n <=? 57)%nat)%bool
  then Some (Z.of_nat (n - 48)) else None.

(** Digits up to the end of the text: their value and their number. *)
Fixpoint read_digits (s : string) (acc : Z) (count : Z) : option (Z * Z) :=
  match s with
  | EmptyString => Some (acc, count)
  | String c rest =>
      match digit_of c with
      | Some d => read_digits rest (10 * acc + d)%Z (count + 1)%Z
      | None => None
      end
  end.

(** Digits up to a decimal point or the end: value, count and what follows
    the point. *)
Fixpoint read_whole (s : string) (acc : Z) (count : Z)
  : option (Z * Z * option string) :=
  match s with
  | EmptyString => Some (acc, count, None)
  | String c rest =>
      if Ascii.eqb c "."%char then Some (acc, count, Some rest)
      else match digit_of c with
           | Some d => read_whole rest (10 * acc + d)%Z (count + 1)%Z
           | None => None
           end
  end.

Definition float_of_Z (z : Z) : float := PrimFloat.of_uint63 (Uint63.of_Z z).

Definition read_unsigned (s : string) : option float :=
  if String.eqb s "nan" then Some nan
  else if String.eqb s "inf" then Some infinity
  else
    match read_whole s 0 0 with
    | Some (w, n, None) =>
        if ((0 <? n) && (n <=? 15))%Z then Some (float_of_Z w) else None
    | Some (w, n, Some frac) =>
        match read_digits frac w 0 with
        | Some (m, k) =>
            if ((0 <? n) && (0 <? k) && (n + k <=? 15))%Z
            then Some (float_of_Z m / float_of_Z (10 ^ k))%float
            else None
        | None => None
        end
    | None => None
    end.

Definition read_float (s : string) : option float :=
  match s with
  | String "-" rest => option_map PrimFloat.opp (read_unsigned rest)
  | String "+" rest => read_unsigned rest
  | _ => read_unsigned s
  end.

(** One rendering of a float, for the examples: whole numbers below 10^16
    as Python prints them, the other finite values as mantissa and binary
    exponent. *)
Definition show_Z (z : Z) : string := NilZero.string_of_int (Z.to_int z).

Definition show_float (f : float) : string :=
  match Prim2SF f with
  | S754_nan => "nan"
  | S754_infinity s => if s then "-inf" else "inf"
  | S754_zero s => if s then "-0.0" else "0.0"
  | S754_finite s m e =>
      let sign := if s then "-" else "" in
      if ((0 <=? e) && (Zpos m * 2 ^ e <? 10 ^ 16))%Z
      then sign ++ show_Z (Zpos m * 2 ^ e) ++ ".0"
      else if ((e <? 0) && (Zpos m mod 2 ^ (- e) =? 0))%Z
           then sign ++ show_Z (Zpos m / 2 ^ (- e)) ++ ".0"
           else sign ++ show_Z (Zpos m) ++ "*2^" ++ show_Z e
  end%string.

(** The fixture of the specification: three rows, minutes and signal. *)
Definition fixture : list (list string) :=
  [["0"; "5.0"]; ["3"; "10.0"]; ["6"; "8.0"]]%string.

(** The fixture once loaded, and once through the peak loop with the window
    from 0 s to 360 s. *)
Definition fixture_loaded : state :=
  {| baseline := infinity;
     x_vals := [0; 180; 360]%float; y_vals := [5; 10; 8]%float;
     peak_x_vals := []; peak_y_vals := [];
     result := None; stdout := []; figure := [] |}.

Definition fixture_peak : state :=
  {| baseline := 5%float;
     x_vals := [0; 180; 360]%float; y_vals := [5; 10; 8]%float;
     peak_x_vals := [0; 180; 360]%float; peak_y_vals := [5; 10; 8]%float;
     result := None; stdout := []; figure := [] |}.

(** Further inputs of one row: a sample before the window of lines 15-16, a
    time that is no number, and a signal that is no number or infinite at
    180 s. *)
Definition early_row : list (list string) := [["0"; "5.0"]]%string.
Definition nan_time_row : list (list string) := [["nan"; "1.0"]]%string.
Definition nan_signal_row : list (list string) := [["3"; "nan"]]%string.
Definition inf_signal_row : list (list string) := [["3"; "inf"]]%string.

Definition early_loaded : state :=
  {| baseline := infinity; x_vals := [0%float]; y_vals := [5%float];
     peak_x_vals := []; peak_y_vals := [];
     result := None; stdout := []; figure := [] |}.

(** A row from which line 33 and line 34 read the numbers [a] and [b]. *)
Definition row_values (float_of_string : string -> option float)
  (row : list string) (ab : float * float) : Prop :=
  exists c0 c1,
    nth_error row 0 = Some c0 /\ nth_error row 1 = Some c1 /\
    float_of_string c0 = Some (fst ab) /\ float_of_string c1 = Some (snd ab).

(** Line 36-37 on a row already read as numbers. *)
Definition store (st : state) (ab : float * float) : state :=
  append_xy (fst ab * 60)%float (snd ab) st.

(** The state the load step leaves: two lists of one length and everything
    else as the script initialised it. *)
Definition loaded (st : state) : Prop :=
  List.length (x_vals st) = List.length (y_vals st) /\
  baseline st = infinity /\ peak_x_vals st = [] /\ peak_y_vals st = [] /\
  result st = None /\ stdout st = [] /\ figure st = [].

(** Lines 56-71 once the peak loop is through, with the trapezoids of the
    specification in place of the slices of [trapz]. *)
Definition finish (float_str : float -> string) (st1 : state) : state :=
  let st2 := correct (print_baseline float_str st1) in
  let area := trapezoid_np_sum (peak_x_vals st2) (peak_y_vals st2) in
  render (print ("Peak area: " ++ float_str area)%string (set_result area st2)).

(** Signs and classes of a specified float. *)
Definition SFnonneg (x : spec_float) : bool :=
  match x with
  | S754_zero _ => true
  | S754_infinity s => negb s
  | S754_nan => false
  | S754_finite s _ _ => negb s
  end.

Definition SFfinite (x : spec_float) : bool :=
  match x with
  | S754_zero _ | S754_finite _ _ _ => true
  | _ => false
  end.

(** What lines 33-34 raise on a row, if anything: the cells are read and
    converted in the order the script evaluates them. *)
Definition row_fault (float_of_string : string -> option float)
  (row : list string) : option exn :=
  match nth_error row 0 with
  | None => Some IndexError
  | Some c0 =>
      match float_of_string c0 with
      | None => Some ValueError
      | Some _ =>
          match nth_error row 1 with
          | None => Some IndexError
          | Some c1 =>
              match float_of_string c1 with
              | None => Some ValueError
              | Some _ => None
              end
          end
      end
  end.

(** A float that is not below zero, as [x < 0] reads it: a positive number,
    a zero of either sign, positive infinity, or NaN. *)
Definition not_below_zero (x : float) : Prop := (x <? 0)%float = false.

Definition SFnot_neg (x : spec_float) : bool :=
  match x with
  | S754_nan | S754_zero _ => true
  | S754_infinity s | S754_finite s _ _ => negb s
  end.

(** Times in non-decreasing order: each is at most the next. *)
Fixpoint ascending (t : list float) : Prop :=
  match t with
  | a :: (b :: _) as rest => (a <=? b)%float = true /\ ascending rest
  | _ => True
  end.

(** Rows for the further examples: a row whose one cell is no number after
    a good row, and two samples within the window, the first with a signal
    that is NaN. *)
Definition bad_second_row : list (list string) :=
  [["0"; "5.0"]; ["x"]; ["3"; "10.0"]]%string.

Definition nan_pair_rows : list (list string) :=
  [["3"; "nan"]; ["4"; "1.0"]]%string.

Definition one_kept_rows : list (list string) :=
  [["0"; "5.0"]; ["3"; "10.0"]]%string.

(** These rows once loaded, and the fixture and the NaN pair once through
    the peak loop with the window of lines 15-16. *)
Definition fixture_script_peak : state :=
  {| baseline := 10%float;
     x_vals := [0; 180; 360]%float; y_vals := [5; 10; 8]%float;
     peak_x_vals := [180%float]; peak_y_vals := [10%float];
     result := None; stdout := []; figure := [] |}.

Definition nan_pair_loaded : state :=
  {| baseline := infinity;
     x_vals := [180; 240]%float; y_vals := [nan; 1%float];
     peak_x_vals := []; peak_y_vals := [];
     result := None; stdout := []; figure := [] |}.

Definition nan_pair_peak : state :=
  {| baseline := 1%float;
     x_vals := [180; 240]%float; y_vals := [nan; 1%float];
     peak_x_vals := [180; 240]%float; peak_y_vals := [nan; 1%float];
     result := None; stdout := []; figure := [] |}.

Definition one_kept_loaded : state :=
  {| baseline := infinity;
     x_vals := [0; 180]%float; y_vals := [5; 10]%float;
     peak_x_vals := []; peak_y_vals := [];
     result := None; stdout := []; figure := [] |}.

(** Nine samples within the window of lines 15-16, from 150 s to 198 s. *)
Definition nine_rows : list (list string) :=
  [["2.5"; "1.0"]; ["2.6"; "1.1"]; ["2.7"; "1.3"]; ["2.8"; "1.7"];
   ["2.9"; "2.5"]; ["3.0"; "4.1"]; ["3.1"; "7.3"]; ["3.2"; "3.7"];
   ["3.3"; "1.2"]]%string.

(** A sample whose time is NaN before a sample at 180 s. *)
Definition nan_time_then_peak_rows : list (list string) :=
  [["nan"; "1.0"]; ["3"; "5.0"]]%string.

(** * Binary64 facts

    The primitive operations are specified by [SpecFloat]; the order and the
    sign of a difference are read off that specification. *)

Section SpecFloatOrder.

Lemma SFcompare_antisym (x y : spec_float) :
  SFcompare y x = option_map CompOpp (SFcompare x y).
Proof.
  destruct x as [[]|[]| |[] m1 e1], y as [[]|[]| |[] m2 e2]; simpl; try reflexivity.
  all: rewrite (Z.compare_antisym e1 e2);
       destruct (e1 ?= e2)%Z; simpl; try reflexivity;
       change (Pos.compare_cont Eq m2 m1) with (Pos.compare m2 m1);
       change (Pos.compare_cont Eq m1 m2) with (Pos.compare m1 m2);
       rewrite (Pos.compare_antisym m1 m2); destruct (m1 ?= m2)%positive; reflexivity.
Qed.

Lemma SFcompare_refl (x : spec_float) : x <> S754_nan -> SFcompare x x = Some Eq.
Proof.
  destruct x as [[]|[]| |[] m e]; simpl; intros H; try reflexivity; try congruence.
  all: rewrite Z.compare_refl;
       change (Pos.compare_cont Eq m m) with (Pos.compare m m);
       rewrite Pos.compare_refl; reflexivity.
Qed.

Lemma SFcompare_total (x y : spec_float) :
  x <> S754_nan -> y <> S754_nan -> exists c, SFcompare x y = Some c.
Proof.
  destruct x, y; simpl; intros Hx Hy; try congruence; eexists; reflexivity.
Qed.

Lemma SFleb_trans (x y z : spec_float) :
  SFleb x y = true -> SFleb y z = true -> SFleb x z = true.
Proof.
  unfold SFleb.
  destruct x as [[]|[]| |[] m1 e1], y as [[]|[]| |[] m2 e2], z as [[]|[]| |[] m3 e3];
    simpl; try reflexivity; try discriminate.
  all: change (Pos.compare_cont Eq) with Pos.compare.
  all: destruct (Z.compare_spec e1 e2); destruct (Z.compare_spec e2 e3);
       destruct (Z.compare_spec e1 e3); try lia; simpl; try reflexivity; try discriminate.
  all: destruct (Pos.compare_spec m1 m2); destruct (Pos.compare_spec m2 m3);
       destruct (Pos.compare_spec m1 m3); try lia; simpl; try reflexivity; try discriminate.
Qed.

Lemma SFleb_zero (x : spec_float) : SFleb (S754_zero false) x = SFnonneg x.
Proof. destruct x as [s|[]| |[] m e]; reflexivity. Qed.

Lemma SFleb_infinity (x : spec_float) :
  SFleb (S754_infinity false) x = true -> x = S754_infinity false.
Proof. destruct x as [s|[]| |[] m e]; simpl; intros H; try discriminate H; reflexivity. Qed.

Lemma SFadd_comm (x y : spec_float) : SF64add x y = SF64add y x.
Proof.
  destruct x as [[]|[]| |sx mx ex], y as [[]|[]| |sy my ey]; try reflexivity.
  unfold SF64add, SFadd. rewrite (Z.min_comm ey ex), Z.add_comm. reflexivity.
Qed.

End SpecFloatOrder.

Section Alignment.

Lemma digits2_pos_bounds (m : positive) :
  (2 ^ (Zpos (digits2_pos m) - 1) <= Zpos m < 2 ^ Zpos (digits2_pos m))%Z.
Proof.
  induction m as [p IH|p IH|]; simpl digits2_pos.
  - rewrite Pos2Z.inj_succ, Z.pow_succ_r by lia.
    replace (Z.succ (Z.pos (digits2_pos p)) - 1)%Z
      with (Z.succ (Z.pos (digits2_pos p) - 1))%Z by lia.
    rewrite Z.pow_succ_r by lia. lia.
  - rewrite Pos2Z.inj_succ, Z.pow_succ_r by lia.
    replace (Z.succ (Z.pos (digits2_pos p)) - 1)%Z
      with (Z.succ (Z.pos (digits2_pos p) - 1))%Z by lia.
    rewrite Z.pow_succ_r by lia. lia.
  - simpl. lia.
Qed.

Lemma iter_xO_pow (m d : positive) :
  Zpos (Pos.iter xO m d) = (Zpos m * 2 ^ Zpos d)%Z.
Proof.
  induction d as [|d IH] using Pos.peano_ind.
  - simpl. lia.
  - rewrite Pos.iter_succ, Pos2Z.inj_succ, Z.pow_succ_r by lia.
    rewrite Pos2Z.inj_xO, IH. lia.
Qed.

Lemma shl_align_fst (m : positive) (e e' : Z) :
  (e' <= e)%Z -> Zpos (fst (shl_align m e e')) = (Zpos m * 2 ^ (e - e'))%Z.
Proof.
  intros H. unfold shl_align.
  destruct (e' - e)%Z as [|d|d] eqn:E; simpl fst.
  - replace (e - e')%Z with 0%Z by lia. simpl. lia.
  - lia.
  - rewrite iter_xO_pow. replace (e - e')%Z with (Zpos d) by lia. reflexivity.
Qed.

Lemma bounded_canonical (m : positive) (e : Z) :
  bounded prec emax m e = true ->
  (e = Z.max (Zpos (digits2_pos m) + e - 53) (-1074))%Z.
Proof.
  unfold bounded, canonical_mantissa, fexp, emin, prec, emax.
  intros H. apply andb_prop in H. destruct H as [H _].
  apply Z.eqb_eq in H. lia.
Qed.

(** The mantissas of two valid floats, brought to the smaller exponent,
    compare as the exponents do when these differ. *)
Lemma aligned_lt (m1 m2 : positive) (e1 e2 : Z) :
  bounded prec emax m1 e1 = true -> bounded prec emax m2 e2 = true ->
  (e1 < e2)%Z -> (Zpos m1 < Zpos m2 * 2 ^ (e2 - e1))%Z.
Proof.
  intros B1 B2 L.
  apply bounded_canonical in B1. apply bounded_canonical in B2.
  pose proof (digits2_pos_bounds m1) as [_ U1].
  pose proof (digits2_pos_bounds m2) as [L2 _].
  assert (D2 : Zpos (digits2_pos m2) = 53%Z) by lia.
  assert (D1 : (Zpos (digits2_pos m1) <= 53)%Z) by lia.
  rewrite D2 in L2.
  assert (P1 : (2 ^ Zpos (digits2_pos m1) <= 2 ^ 53)%Z)
    by (apply Z.pow_le_mono_r; lia).
  assert (P2 : (2 ^ 1 <= 2 ^ (e2 - e1))%Z) by (apply Z.pow_le_mono_r; lia).
  change (2 ^ (53 - 1))%Z with 4503599627370496%Z in L2.
  change (2 ^ 53)%Z with 9007199254740992%Z in P1.
  change (2 ^ 1)%Z with 2%Z in P2.
  nia.
Qed.

End Alignment.

Section Rounding.

Lemma shr_1_nonneg (mrs : shr_record) :
  (0 <= shr_m mrs)%Z -> (0 <= shr_m (shr_1 mrs))%Z.
Proof.
  destruct mrs as [m r s]; simpl.
  destruct m as [|[p|p|]|[p|p|]]; simpl; lia.
Qed.

Lemma iter_pos_shr_1_nonneg (p : positive) (mrs : shr_record) :
  (0 <= shr_m mrs)%Z -> (0 <= shr_m (iter_pos shr_1 p mrs))%Z.
Proof.
  revert mrs. induction p as [p IH|p IH|]; intros mrs H; simpl.
  - apply IH, IH, shr_1_nonneg, H.
  - apply IH, IH, H.
  - apply shr_1_nonneg, H.
Qed.

Lemma shr_fexp_nonneg (m e : Z) (l : location) :
  (0 <= m)%Z -> (0 <= shr_m (fst (shr_fexp prec emax m e l)))%Z.
Proof.
  intros H. unfold shr_fexp, shr.
  assert (H0 : (0 <= shr_m (shr_record_of_loc m l))%Z)
    by (destruct l as [|[]]; simpl; exact H).
  destruct (fexp prec emax (Zdigits2 m + e) - e)%Z; simpl fst; auto.
  apply iter_pos_shr_1_nonneg, H0.
Qed.

Lemma round_nearest_even_nonneg (m : Z) (l : location) :
  (0 <= m)%Z -> (0 <= round_nearest_even m l)%Z.
Proof.
  intros H. destruct l as [|[]]; simpl; try lia.
  destruct (Z.even m); lia.
Qed.

Lemma binary_round_aux_nonneg (m e : Z) (l : location) :
  (0 <= m)%Z -> SFnonneg (binary_round_aux prec emax false m e l) = true.
Proof.
  intros H. unfold binary_round_aux.
  pose proof (shr_fexp_nonneg m e l H) as H1.
  destruct (shr_fexp prec emax m e l) as [mrs' e'] eqn:E1. simpl fst in H1.
  pose proof (shr_fexp_nonneg _ e' loc_Exact
                (round_nearest_even_nonneg _ (loc_of_shr_record mrs') H1)) as H2.
  destruct (shr_fexp prec emax
              (round_nearest_even (shr_m mrs') (loc_of_shr_record mrs'))
              e' loc_Exact) as [mrs'' e''] eqn:E2.
  simpl fst in H2.
  destruct (shr_m mrs'') as [|q|q]; try reflexivity.
  - destruct (e'' <=? emax - prec)%Z; reflexivity.
  - lia.
Qed.

Lemma binary_normalize_nonneg (m e : Z) :
  (0 <= m)%Z -> SFnonneg (binary_normalize prec emax m e false) = true.
Proof.
  intros H. destruct m as [|p|p]; simpl; try reflexivity; try lia.
  unfold binary_round.
  destruct (shl_align p e (fexp prec emax (Z.pos (digits2_pos p) + e))) as [mz ez].
  apply binary_round_aux_nonneg. lia.
Qed.

Lemma SFsub_diag (x : spec_float) :
  SFfinite x = true -> SF64sub x x = S754_zero false.
Proof.
  destruct x as [[]|[]| |s m e]; simpl; try discriminate; try reflexivity.
  intros _. rewrite Z.sub_diag. reflexivity.
Qed.

(** Subtracting a finite float from one it does not exceed never gives a
    negative result, whatever the rounding. *)
Lemma SFsub_nonneg (x y : spec_float) :
  valid_binary x = true -> valid_binary y = true ->
  SFfinite y = true -> SFleb y x = true -> SFnonneg (SF64sub x y) = true.
Proof.
  intros Vx Vy Fy L.
  destruct y as [sy|sy| |sy my ey]; try discriminate Fy;
    destruct x as [sx|sx| |sx mx ex]; try discriminate L.
  - destruct sx, sy; reflexivity.
  - destruct sx; [discriminate L|reflexivity].
  - destruct sx; [discriminate L|reflexivity].
  - destruct sy; [reflexivity|discriminate L].
  - destruct sx; [discriminate L|reflexivity].
  - simpl in Vx, Vy. unfold SF64sub, SFsub.
    apply binary_normalize_nonneg.
    rewrite !shl_align_fst by lia.
    unfold SFleb in L. simpl in L.
    change (Pos.compare_cont Eq) with Pos.compare in L.
    assert (Px : (0 < 2 ^ (ex - Z.min ex ey))%Z) by (apply Z.pow_pos_nonneg; lia).
    assert (Py : (0 < 2 ^ (ey - Z.min ex ey))%Z) by (apply Z.pow_pos_nonneg; lia).
    destruct sy, sx; unfold cond_Zopp; simpl in L; try discriminate L.
    + destruct (Z.compare_spec ey ex) as [E|E|E]; try discriminate L.
      * subst. rewrite Z.min_id, Z.sub_diag.
        destruct (Pos.compare_spec my mx); simpl in L; try discriminate L;
          change (2 ^ 0)%Z with 1%Z; lia.
      * pose proof (aligned_lt mx my ex ey Vx Vy E).
        rewrite Z.min_l by lia. rewrite Z.sub_diag. change (2 ^ 0)%Z with 1%Z. lia.
    + nia.
    + destruct (Z.compare_spec ey ex) as [E|E|E]; try discriminate L.
      * subst. rewrite Z.min_id, Z.sub_diag.
        destruct (Pos.compare_spec my mx); simpl in L; try discriminate L;
          change (2 ^ 0)%Z with 1%Z; lia.
      * pose proof (aligned_lt my mx ey ex Vy Vx E).
        rewrite Z.min_r by lia. rewrite Z.sub_diag. change (2 ^ 0)%Z with 1%Z. lia.
Qed.

End Rounding.

(** The same facts on primitive floats. *)
Section Binary64.

Local Open Scope float_scope.

Lemma Prim2SF_zero : Prim2SF 0 = S754_zero false.
Proof. reflexivity. Qed.

Lemma Prim2SF_infinity : Prim2SF infinity = S754_infinity false.
Proof. reflexivity. Qed.

Lemma is_nan_false (x : float) : is_nan x = false <-> Prim2SF x <> S754_nan.
Proof.
  unfold is_nan. rewrite eqb_spec. unfold SFeqb. split.
  - intros H E. rewrite E in H. discriminate H.
  - intros H. rewrite (SFcompare_refl _ H). reflexivity.
Qed.

Lemma is_finite_spec (x : float) : is_finite x = SFfinite (Prim2SF x).
Proof.
  unfold is_finite, is_nan, is_infinity.
  rewrite !eqb_spec, abs_spec, Prim2SF_infinity. unfold SFeqb.
  destruct (Prim2SF x) as [[]|[]| |[] m e] eqn:E; simpl; try reflexivity.
  all: rewrite Z.compare_refl;
       change (Pos.compare_cont Eq m m) with (Pos.compare m m);
       rewrite Pos.compare_refl; reflexivity.
Qed.

Lemma is_finite_not_nan (x : float) : is_finite x = true -> is_nan x = false.
Proof.
  rewrite is_finite_spec. intros H. apply is_nan_false.
  intros E. rewrite E in H. discriminate H.
Qed.

Lemma leb_not_nan (x y : float) :
  (x <=? y) = true -> is_nan x = false /\ is_nan y = false.
Proof.
  rewrite leb_spec. unfold SFleb. intros H.
  split; apply is_nan_false; intros E; rewrite E in H.
  - discriminate H.
  - destruct (Prim2SF x); discriminate H.
Qed.

Lemma ltb_false_leb (x y : float) :
  is_nan x = false -> is_nan y = false -> (x <? y) = false -> (y <=? x) = true.
Proof.
  intros Hx Hy. apply is_nan_false in Hx. apply is_nan_false in Hy.
  rewrite ltb_spec, leb_spec. unfold SFltb, SFleb.
  rewrite (SFcompare_antisym (Prim2SF x) (Prim2SF y)).
  destruct (SFcompare_total _ _ Hx Hy) as [c ->].
  destruct c; simpl; congruence.
Qed.

Lemma leb_ltb_false (x y : float) : (y <=? x) = true -> (x <? y) = false.
Proof.
  rewrite ltb_spec, leb_spec. unfold SFltb, SFleb.
  rewrite (SFcompare_antisym (Prim2SF x) (Prim2SF y)).
  destruct (SFcompare (Prim2SF x) (Prim2SF y)) as [[]|]; simpl; congruence.
Qed.

Lemma ltb_leb (x y : float) : (x <? y) = true -> (x <=? y) = true.
Proof.
  rewrite ltb_spec, leb_spec. unfold SFltb, SFleb.
  destruct (SFcompare (Prim2SF x) (Prim2SF y)) as [[]|]; congruence.
Qed.

Lemma leb_refl (x : float) : is_nan x = false -> (x <=? x) = true.
Proof.
  intros H. apply is_nan_false in H.
  rewrite leb_spec. unfold SFleb. rewrite (SFcompare_refl _ H). reflexivity.
Qed.

Lemma leb_trans (x y z : float) :
  (x <=? y) = true -> (y <=? z) = true -> (x <=? z) = true.
Proof. rewrite !leb_spec. apply SFleb_trans. Qed.

Lemma leb_infinity (x : float) : (infinity <=? x) = true -> x = infinity.
Proof.
  rewrite leb_spec, Prim2SF_infinity. intros H.
  apply Prim2SF_inj. rewrite Prim2SF_infinity. apply SFleb_infinity, H.
Qed.

Lemma add_comm (x y : float) : x + y = y + x.
Proof. apply Prim2SF_inj. rewrite !add_spec. apply SFadd_comm. Qed.

Lemma sub_diag (x : float) : is_finite x = true -> x - x = 0.
Proof.
  rewrite is_finite_spec. intros H.
  apply Prim2SF_inj. rewrite sub_spec, Prim2SF_zero. apply SFsub_diag, H.
Qed.

Lemma sub_nonneg (x y : float) :
  is_finite y = true -> (y <=? x) = true -> (0 <=? x - y) = true.
Proof.
  rewrite is_finite_spec, !leb_spec, sub_spec, Prim2SF_zero, SFleb_zero.
  intros F L. apply SFsub_nonneg; auto using Prim2SF_valid.
Qed.

(** The in-window test of the loop and the inclusive window agree on every
    time that is a number. *)
Lemma kept_in_window (start stop t : float) :
  is_nan start = false -> is_nan stop = false -> is_nan t = false ->
  kept start stop t = in_window start stop t.
Proof.
  intros Hs He Ht. unfold kept, in_window.
  rewrite negb_orb. f_equal.
  - destruct (t <? start) eqn:E; simpl.
    + symmetry. destruct (start <=? t) eqn:E'; [|reflexivity].
      apply leb_ltb_false in E'. congruence.
    + symmetry. apply ltb_false_leb; assumption.
  - destruct (stop <? t) eqn:E; simpl.
    + symmetry. destruct (t <=? stop) eqn:E'; [|reflexivity].
      apply leb_ltb_false in E'. congruence.
    + symmetry. apply ltb_false_leb; assumption.
Qed.

End Binary64.

(** * The steps of the script *)

Section Results.

Context {A B : Type}.

Lemma bind_Ok (c : Py A) (k : A -> Py B) (b : B) :
  (x <- c ;; k x) = Ok b -> exists a, c = Ok a /\ k a = Ok b.
Proof. destruct c as [a|e]; simpl; intros H; [eauto|discriminate H]. Qed.

Lemma getitem_at (pre : list A) (a : A) (rest : list A) :
  getitem (pre ++ a :: rest) (Z.of_nat (List.length pre)) = Ok a.
Proof.
  unfold getitem.
  destruct (Z.of_nat (List.length pre) <? 0)%Z eqn:E;
    [apply Z.ltb_lt in E; lia|].
  rewrite E, Nat2Z.id, nth_error_app2, Nat.sub_diag by lia. reflexivity.
Qed.

Lemma getitem_nth_error (l : list A) (n : nat) :
  getitem l (Z.of_nat n) =
  match nth_error l n with Some a => Ok a | None => Raise IndexError end.
Proof.
  unfold getitem.
  destruct (Z.of_nat n <? 0)%Z eqn:E; [apply Z.ltb_lt in E; lia|].
  rewrite E, Nat2Z.id. reflexivity.
Qed.

End Results.

Section Lists.

Lemma length_zip_with (f : float -> float -> float) (a b : list float) :
  List.length (zip_with f a b) = Nat.min (List.length a) (List.length b).
Proof.
  revert b. induction a as [|u a IH]; intros [|v b]; simpl; auto.
Qed.

Lemma length_upto_last (a : list float) :
  List.length (upto_last a) = Nat.pred (List.length a).
Proof.
  unfold upto_last. induction a as [|u [|v a] IH]; simpl in *; auto.
Qed.

Lemma length_diff (a : list float) :
  List.length (diff a) = Nat.pred (List.length a).
Proof.
  unfold diff, from_1. rewrite length_zip_with, length_upto_last.
  destruct a; simpl; lia.
Qed.

Lemma trapezoid_shift (t0 y0 : float) (t y : list float) (k : nat) :
  trapezoid (t0 :: t) (y0 :: y) (S k) = trapezoid t y k.
Proof. reflexivity. Qed.

(** The slices of [trapz] yield, term by term, the trapezoids of the
    specification. *)
Lemma trapz_terms (x y : list float) :
  List.length x = List.length y ->
  map (fun v => (v / 2)%float)
    (zip_with PrimFloat.mul (diff x)
       (zip_with PrimFloat.add (from_1 y) (upto_last y))) =
  map (trapezoid x y) (seq 0 (List.length x - 1)).
Proof.
  revert y. induction x as [|t0 x IH]; intros [|y0 y] H; try discriminate H.
  - reflexivity.
  - injection H as H. destruct x as [|t1 x], y as [|y1 y]; try discriminate H.
    + reflexivity.
    + specialize (IH (y1 :: y) H).
      simpl List.length in IH |- *.
      rewrite !Nat.sub_succ, !Nat.sub_0_r in IH |- *.
      rewrite <- cons_seq, <- seq_shift, map_cons, map_map.
      rewrite (map_ext _ (trapezoid (t1 :: x) (y1 :: y)))
        by (intros k; apply trapezoid_shift).
      rewrite <- IH.
      unfold trapezoid, diff, from_1, upto_last. simpl.
      rewrite (add_comm y1 y0). reflexivity.
Qed.

Lemma trapz_spec (y x : list float) :
  List.length x = List.length y -> trapz y x = Ok (trapezoid_np_sum x y).
Proof.
  intros H. unfold trapz, broadcast.
  rewrite length_diff, length_zip_with, length_upto_last.
  replace (Nat.pred (List.length x) =?
           Nat.min (List.length (from_1 y)) (Nat.pred (List.length y)))%nat
    with true.
  - simpl. unfold trapezoid_np_sum, trapezoid_terms.
    rewrite trapz_terms by exact H.
    reflexivity.
  - symmetry. apply Nat.eqb_eq. unfold from_1. rewrite H.
    destruct y; simpl; lia.
Qed.

End Lists.

(** ** numpy's sum *)

Section Summation.

Local Open Scope float_scope.

Lemma Forall_zip_with (P : float -> Prop) (f : float -> float -> float)
  (a b : list float) :
  (forall u v, P u -> P v -> P (f u v)) ->
  Forall P a -> Forall P b -> Forall P (zip_with f a b).
Proof.
  intros Hf Ha. revert b.
  induction Ha as [|u a Hu Ha IH]; intros b Hb; [constructor|].
  destruct Hb as [|v b Hv Hb]; simpl; [constructor|].
  constructor; [apply Hf; assumption|apply IH, Hb].
Qed.

Lemma pairwise_sum_rec_small (fuel : nat) (a : list float) :
  (List.length a <= 128)%nat -> pairwise_sum_rec fuel a = pairwise_block a.
Proof.
  intros H. destruct fuel; cbn [pairwise_sum_rec]; [reflexivity|].
  apply Nat.leb_le in H. rewrite H. reflexivity.
Qed.

Lemma pairwise_sum_rec_large (fuel : nat) (a : list float) :
  (128 < List.length a)%nat ->
  pairwise_sum_rec (S fuel) a =
  pairwise_sum_rec fuel
    (firstn (List.length a / 2 - (List.length a / 2) mod 8) a) +
  pairwise_sum_rec fuel
    (skipn (List.length a / 2 - (List.length a / 2) mod 8) a).
Proof.
  intros H. cbn [pairwise_sum_rec].
  apply Nat.leb_gt in H. rewrite H. reflexivity.
Qed.

Lemma split_shorter (n : nat) :
  (128 < n)%nat ->
  (0 < n / 2 - (n / 2) mod 8 < n)%nat.
Proof.
  intros H.
  pose proof (Nat.mod_upper_bound (n / 2) 8 ltac:(discriminate)) as M.
  assert (D : (64 <= n / 2)%nat)
    by (apply Nat.div_le_lower_bound; [discriminate|lia]).
  assert (U : (n / 2 < n)%nat) by (apply Nat.div_lt; lia).
  lia.
Qed.

(** The fuel does not matter once it covers the length. *)
Lemma pairwise_sum_rec_fuel (fuel : nat) :
  forall (fuel' : nat) (a : list float),
  (List.length a <= fuel)%nat -> (List.length a <= fuel')%nat ->
  pairwise_sum_rec fuel a = pairwise_sum_rec fuel' a.
Proof.
  induction fuel as [|fuel IH]; intros fuel' a H H'.
  - rewrite !pairwise_sum_rec_small by lia. reflexivity.
  - destruct (Nat.le_gt_cases (List.length a) 128) as [S|L].
    + rewrite !pairwise_sum_rec_small by exact S. reflexivity.
    + destruct fuel' as [|fuel']; [lia|].
      rewrite !pairwise_sum_rec_large by exact L.
      pose proof (split_shorter _ L) as B.
      f_equal; apply IH; rewrite ?length_firstn, ?length_skipn; lia.
Qed.

(** [DOUBLE_pairwise_sum] as the source has it, without fuel. *)
Lemma pairwise_sum_unfold (a : list float) :
  pairwise_sum a =
  if (List.length a <=? 128)%nat then pairwise_block a
  else pairwise_sum
         (firstn (List.length a / 2 - (List.length a / 2) mod 8) a) +
       pairwise_sum
         (skipn (List.length a / 2 - (List.length a / 2) mod 8) a).
Proof.
  unfold pairwise_sum.
  destruct (Nat.le_gt_cases (List.length a) 128) as [S|L].
  - rewrite (proj2 (Nat.leb_le _ _) S). apply pairwise_sum_rec_small, S.
  - rewrite (proj2 (Nat.leb_gt _ _) L).
    pose proof (split_shorter _ L) as B.
    destruct (List.length a) as [|k] eqn:K; [lia|].
    rewrite pairwise_sum_rec_large by lia. rewrite K.
    f_equal; apply pairwise_sum_rec_fuel;
      rewrite ?length_firstn, ?length_skipn; lia.
Qed.

Lemma pairwise_block_short (a : list float) :
  (List.length a < 8)%nat -> pairwise_block a = fold_left PrimFloat.add a 0.
Proof.
  intros H.
  do 8 (destruct a as [|? a]; [reflexivity|]). simpl in H. lia.
Qed.

(** Fewer than 8 terms are added in index order. *)
Lemma np_sum_short (a : list float) :
  (List.length a < 8)%nat -> np_sum a = 0 + fold_left PrimFloat.add a 0.
Proof.
  intros H. unfold np_sum, pairwise_sum.
  rewrite pairwise_sum_rec_small by lia.
  rewrite pairwise_block_short by exact H. reflexivity.
Qed.

(** *** What every summand has, the sum has *)

Section Closed.

Variable P : float -> Prop.
Hypothesis P_zero : P 0.
Hypothesis P_add : forall u v, P u -> P v -> P (u + v).

Lemma fold_add_closed (l : list float) :
  forall acc, P acc -> Forall P l -> P (fold_left PrimFloat.add l acc).
Proof.
  induction l as [|u l IH]; intros acc Hacc Hl; simpl; [exact Hacc|].
  inversion Hl; subst. apply IH; [apply P_add|]; assumption.
Qed.

Lemma tree_closed (r : lanes) : Forall P (lanes_list r) -> P (tree r).
Proof.
  intros H. unfold lanes_list in H.
  repeat match goal with
         | H : Forall P (_ :: _) |- _ => inversion H; clear H; subst
         end.
  unfold tree. repeat apply P_add; assumption.
Qed.

Lemma unrolled_closed (n : nat) :
  forall (a : list float) (r : lanes),
  (List.length a <= n)%nat ->
  Forall P (lanes_list r) -> Forall P a ->
  Forall P (lanes_list (fst (unrolled r a))) /\
  Forall P (snd (unrolled r a)).
Proof.
  induction n as [|n IH]; intros a r Hn Hr Ha.
  - destruct a; [split; assumption|simpl in Hn; lia].
  - do 8 (destruct a as [|? a]; [split; assumption|]).
    cbn [unrolled].
    repeat match goal with
           | H : Forall P (_ :: _) |- _ => inversion H; clear H; subst
           end.
    apply IH; [simpl in Hn; lia| |assumption].
    change (lanes_list (add_lanes r (mkLanes f f0 f1 f2 f3 f4 f5 f6)))
      with (zip_with PrimFloat.add (lanes_list r) [f; f0; f1; f2; f3; f4; f5; f6]).
    apply Forall_zip_with; [exact P_add|assumption|repeat constructor; assumption].
Qed.

Lemma pairwise_block_closed (a : list float) :
  Forall P a -> P (pairwise_block a).
Proof.
  intros Ha.
  destruct (Nat.lt_ge_cases (List.length a) 8) as [S|L].
  - rewrite pairwise_block_short by exact S.
    apply fold_add_closed; assumption.
  - do 8 (destruct a as [|? a]; [simpl in L; lia|]).
    cbn [pairwise_block].
    repeat match goal with
           | H : Forall P (_ :: _) |- _ => inversion H; clear H; subst
           end.
    destruct (unrolled_closed (List.length a) a
                (mkLanes f f0 f1 f2 f3 f4 f5 f6) (le_n _)) as [Hr Ht];
      [repeat constructor; assumption|assumption|].
    destruct (unrolled (mkLanes f f0 f1 f2 f3 f4 f5 f6) a) as [r tail].
    apply fold_add_closed; [apply tree_closed, Hr|exact Ht].
Qed.

Lemma pairwise_sum_rec_closed (fuel : nat) :
  forall a, Forall P a -> P (pairwise_sum_rec fuel a).
Proof.
  induction fuel as [|fuel IH]; intros a Ha; cbn [pairwise_sum_rec].
  - apply pairwise_block_closed, Ha.
  - destruct (List.length a <=? 128)%nat; [apply pairwise_block_closed, Ha|].
    rewrite <- (firstn_skipn (List.length a / 2 - (List.length a / 2) mod 8) a)
      in Ha.
    apply Forall_app in Ha. destruct Ha as [H1 H2].
    apply P_add; apply IH; assumption.
Qed.

Lemma np_sum_closed (a : list float) : Forall P a -> P (np_sum a).
Proof.
  intros Ha. unfold np_sum, pairwise_sum.
  apply P_add; [exact P_zero|apply pairwise_sum_rec_closed, Ha].
Qed.

End Closed.

(** *** A summand that absorbs every other is the sum *)

Section Absorbed.

Variable z : float.
Hypothesis z_l : forall u, z + u = z.
Hypothesis z_r : forall u, u + z = z.

Lemma fold_add_from_absorbing (l : list float) :
  fold_left PrimFloat.add l z = z.
Proof.
  induction l as [|u l IH]; simpl; [reflexivity|]. rewrite z_l. exact IH.
Qed.

Lemma fold_add_absorbed (l : list float) :
  forall acc, In z l -> fold_left PrimFloat.add l acc = z.
Proof.
  induction l as [|u l IH]; intros acc Hin; [contradiction|]. simpl.
  destruct Hin as [->|Hin]; [rewrite z_r; apply fold_add_from_absorbing|].
  apply IH, Hin.
Qed.

Lemma zip_add_absorbed (a b : list float) :
  List.length a = List.length b -> In z a \/ In z b ->
  In z (zip_with PrimFloat.add a b).
Proof.
  revert b. induction a as [|u a IH]; intros [|v b] Hlen Hin;
    try discriminate Hlen; [destruct Hin as [[]|[]]|].
  injection Hlen as Hlen. simpl.
  destruct Hin as [[->|Hin]|[->|Hin]];
    [left; apply z_l|right; apply IH; auto|left; apply z_r
    |right; apply IH; auto].
Qed.

Lemma tree_absorbed (r : lanes) : In z (lanes_list r) -> tree r = z.
Proof.
  unfold lanes_list, tree. simpl.
  intros [<-|[<-|[<-|[<-|[<-|[<-|[<-|[<-|[]]]]]]]]];
    rewrite ?z_l, ?z_r; rewrite ?z_l, ?z_r; rewrite ?z_l, ?z_r; reflexivity.
Qed.

Lemma unrolled_absorbed (n : nat) :
  forall (a : list float) (r : lanes),
  (List.length a <= n)%nat ->
  In z (lanes_list r) \/ In z a ->
  In z (lanes_list (fst (unrolled r a))) \/ In z (snd (unrolled r a)).
Proof.
  induction n as [|n IH]; intros a r Hn Hin.
  - destruct a; [exact Hin|simpl in Hn; lia].
  - do 8 (destruct a as [|? a]; [exact Hin|]).
    cbn [unrolled].
    apply IH; [simpl in Hn; lia|].
    change (lanes_list (add_lanes r (mkLanes f f0 f1 f2 f3 f4 f5 f6)))
      with (zip_with PrimFloat.add (lanes_list r) [f; f0; f1; f2; f3; f4; f5; f6]).
    destruct Hin as [Hin|Hin].
    + left. apply zip_add_absorbed; [reflexivity|left; exact Hin].
    + change (f :: f0 :: f1 :: f2 :: f3 :: f4 :: f5 :: f6 :: a)
        with ([f; f0; f1; f2; f3; f4; f5; f6] ++ a) in Hin.
      apply in_app_or in Hin. destruct Hin as [Hin|Hin]; [left|right; exact Hin].
      apply zip_add_absorbed; [reflexivity|right; exact Hin].
Qed.

Lemma pairwise_block_absorbed (a : list float) :
  In z a -> pairwise_block a = z.
Proof.
  intros Hin.
  destruct (Nat.lt_ge_cases (List.length a) 8) as [S|L].
  - rewrite pairwise_block_short by exact S. apply fold_add_absorbed, Hin.
  - do 8 (destruct a as [|? a]; [simpl in L; lia|]).
    cbn [pairwise_block].
    change (f :: f0 :: f1 :: f2 :: f3 :: f4 :: f5 :: f6 :: a)
      with (lanes_list (mkLanes f f0 f1 f2 f3 f4 f5 f6) ++ a) in Hin.
    apply in_app_or in Hin.
    pose proof (unrolled_absorbed (List.length a) a
                  (mkLanes f f0 f1 f2 f3 f4 f5 f6) (le_n _) Hin) as H.
    destruct (unrolled (mkLanes f f0 f1 f2 f3 f4 f5 f6) a) as [r tail].
    simpl fst in H. simpl snd in H.
    destruct H as [H|H]; [|apply fold_add_absorbed, H].
    rewrite (tree_absorbed r H). apply fold_add_from_absorbing.
Qed.

Lemma pairwise_sum_rec_absorbed (fuel : nat) :
  forall a, In z a -> pairwise_sum_rec fuel a = z.
Proof.
  induction fuel as [|fuel IH]; intros a Hin; cbn [pairwise_sum_rec].
  - apply pairwise_block_absorbed, Hin.
  - destruct (List.length a <=? 128)%nat; [apply pairwise_block_absorbed, Hin|].
    rewrite <- (firstn_skipn (List.length a / 2 - (List.length a / 2) mod 8) a)
      in Hin.
    apply in_app_or in Hin.
    destruct Hin as [Hin|Hin]; rewrite (IH _ Hin); [apply z_l|apply z_r].
Qed.

Lemma np_sum_absorbed (a : list float) : In z a -> np_sum a = z.
Proof.
  intros Hin. unfold np_sum, pairwise_sum.
  rewrite (pairwise_sum_rec_absorbed _ _ Hin). apply z_r.
Qed.

End Absorbed.

End Summation.

(** ** An index-order sum from 0.0 is never the negative zero *)

Section NoNegativeZero.

Lemma shr_1_pow (j : Z) (mrs : shr_record) :
  (1 <= j)%Z -> (2 ^ j <= shr_m mrs)%Z -> (2 ^ (j - 1) <= shr_m (shr_1 mrs))%Z.
Proof.
  intros Hj H. destruct mrs as [m r s]. simpl in *.
  replace j with (Z.succ (j - 1)) in H by lia.
  rewrite Z.pow_succ_r in H by lia.
  assert (P : (0 < 2 ^ (j - 1))%Z) by (apply Z.pow_pos_nonneg; lia).
  destruct m as [|[p|p|]|[p|p|]]; simpl; lia.
Qed.

Lemma iter_pos_shr_1_pow (k : positive) :
  forall (j : Z) (mrs : shr_record),
  (Zpos k <= j)%Z -> (2 ^ j <= shr_m mrs)%Z ->
  (2 ^ (j - Zpos k) <= shr_m (iter_pos shr_1 k mrs))%Z.
Proof.
  induction k as [k IH|k IH|]; intros j mrs Hj H; simpl iter_pos.
  - replace (j - Z.pos k~1)%Z with (j - 1 - Zpos k - Zpos k)%Z by lia.
    apply IH; [lia|]. apply IH; [lia|]. apply shr_1_pow; [lia|exact H].
  - replace (j - Z.pos k~0)%Z with (j - Zpos k - Zpos k)%Z by lia.
    apply IH; [lia|]. apply IH; [lia|exact H].
  - apply shr_1_pow; [lia|exact H].
Qed.

(** Rounding a positive mantissa whose exponent is not below the least one
    never shifts it down to zero. *)
Lemma shr_fexp_pos (m e : Z) (l : location) :
  (0 < m)%Z -> (-1074 <= e)%Z ->
  (0 < shr_m (fst (shr_fexp prec emax m e l)))%Z /\
  (-1074 <= snd (shr_fexp prec emax m e l))%Z.
Proof.
  intros Hm He. unfold shr_fexp, shr, fexp, emin, prec, emax.
  assert (H0 : shr_m (shr_record_of_loc m l) = m)
    by (destruct l as [|[]]; reflexivity).
  destruct m as [|p|p]; try lia. simpl Zdigits2.
  pose proof (digits2_pos_bounds p) as [Lo _].
  destruct (Z.max (Z.pos (digits2_pos p) + e - 53) (3 - 1024 - 53) - e)%Z
    as [|k|k] eqn:E; simpl fst; simpl snd; try (rewrite H0; lia).
  split; [|lia].
  assert (K : Zpos k = (Zpos (digits2_pos p) - 53)%Z) by lia.
  pose proof (iter_pos_shr_1_pow k (Zpos (digits2_pos p) - 1)
                (shr_record_of_loc (Zpos p) l)) as H.
  rewrite H0 in H. specialize (H ltac:(lia) Lo).
  replace (Z.pos (digits2_pos p) - 1 - Z.pos k)%Z with 52%Z in H by lia.
  change (2 ^ 52)%Z with 4503599627370496%Z in H. lia.
Qed.

Lemma round_nearest_even_pos (m : Z) (l : location) :
  (0 < m)%Z -> (0 < round_nearest_even m l)%Z.
Proof.
  intros H. destruct l as [|[]]; simpl; try lia.
  destruct (Z.even m); lia.
Qed.

Lemma binary_round_aux_not_zero (s s' : bool) (m e : Z) (l : location) :
  (0 < m)%Z -> (-1074 <= e)%Z ->
  binary_round_aux prec emax s m e l <> S754_zero s'.
Proof.
  intros Hm He. unfold binary_round_aux.
  destruct (shr_fexp_pos m e l Hm He) as [H1 H1'].
  destruct (shr_fexp prec emax m e l) as [mrs' e'].
  simpl fst in H1. simpl snd in H1'.
  destruct (shr_fexp_pos _ e' loc_Exact
              (round_nearest_even_pos _ (loc_of_shr_record mrs') H1) H1')
    as [H2 _].
  destruct (shr_fexp prec emax
              (round_nearest_even (shr_m mrs') (loc_of_shr_record mrs'))
              e' loc_Exact) as [mrs'' e''].
  simpl fst in H2.
  destruct (shr_m mrs'') as [|q|q]; try lia; try discriminate.
  destruct (e'' <=? emax - prec)%Z; discriminate.
Qed.

Lemma binary_round_not_zero (s s' : bool) (p : positive) (e : Z) :
  (-1074 <= e)%Z -> binary_round prec emax s p e <> S754_zero s'.
Proof.
  intros He. unfold binary_round, shl_align.
  assert (F : (-1074 <= fexp prec emax (Z.pos (digits2_pos p) + e))%Z)
    by (unfold fexp, emin, prec, emax; lia).
  destruct (fexp prec emax (Z.pos (digits2_pos p) + e) - e)%Z;
    apply binary_round_aux_not_zero; lia.
Qed.

Lemma bounded_emin (m : positive) (e : Z) :
  bounded prec emax m e = true -> (-1074 <= e)%Z.
Proof. intros H. apply bounded_canonical in H. lia. Qed.

(** A sum is the negative zero only when its first term is. *)
Lemma SFadd_not_neg_zero (x y : spec_float) :
  valid_binary x = true -> valid_binary y = true ->
  x <> S754_zero true -> SF64add x y <> S754_zero true.
Proof.
  intros Vx Vy Hx.
  destruct x as [[]|sx| |sx mx ex], y as [[]|sy| |sy my ey];
    simpl; try congruence; try discriminate;
    try (destruct sx; discriminate); try (destruct sx, sy; discriminate).
  simpl in Vx, Vy. apply bounded_emin in Vx. apply bounded_emin in Vy.
  unfold SF64add, SFadd, binary_normalize.
  destruct (cond_Zopp sx (Z.pos (fst (shl_align mx ex (Z.min ex ey)))) +
            cond_Zopp sy (Z.pos (fst (shl_align my ey (Z.min ex ey)))))%Z;
    [discriminate|apply binary_round_not_zero; lia
    |apply binary_round_not_zero; lia].
Qed.

Local Open Scope float_scope.

Lemma add_zero_l (x : float) : Prim2SF x <> S754_zero true -> 0 + x = x.
Proof.
  intros H. apply Prim2SF_inj. rewrite add_spec, Prim2SF_zero.
  destruct (Prim2SF x) as [[]|sx| |sx mx ex]; try reflexivity. congruence.
Qed.

Lemma fold_add_not_neg_zero (l : list float) :
  forall acc, Prim2SF acc <> S754_zero true ->
  Prim2SF (fold_left PrimFloat.add l acc) <> S754_zero true.
Proof.
  induction l as [|u l IH]; intros acc H; simpl; [exact H|].
  apply IH. rewrite add_spec.
  apply SFadd_not_neg_zero; auto using Prim2SF_valid.
Qed.

(** Fewer than 8 terms: numpy's sum is the sum in index order from 0.0. *)
Lemma np_sum_index_order (a : list float) :
  (List.length a < 8)%nat -> np_sum a = fold_left PrimFloat.add a 0.
Proof.
  intros H. rewrite (np_sum_short a H). apply add_zero_l.
  apply fold_add_not_neg_zero. rewrite Prim2SF_zero. discriminate.
Qed.

End NoNegativeZero.

Section Loops.

Variable float_of_string : string -> option float.
Variable float_str : float -> string.

(** *** The read loop *)

Lemma read_row_values (row : list string) (ab : float * float) (st : state) :
  row_values float_of_string row ab ->
  read_row float_of_string row st = Ok (store st ab).
Proof.
  intros (c0 & c1 & H0 & H1 & F0 & F1). unfold read_row.
  change (getitem row 0) with (getitem row (Z.of_nat 0)).
  change (getitem row 1) with (getitem row (Z.of_nat 1)).
  rewrite !getitem_nth_error, H0, H1.
  unfold to_float. simpl. rewrite F0. simpl. rewrite F1. reflexivity.
Qed.

Lemma read_rows_values (reader : list (list string)) (parsed : list (float * float)) :
  Forall2 (row_values float_of_string) reader parsed ->
  forall st, read_rows float_of_string reader st = Ok (fold_left store parsed st).
Proof.
  induction 1 as [|row ab reader parsed Hrow _ IH]; intros st; simpl.
  - reflexivity.
  - rewrite (read_row_values _ _ _ Hrow). simpl. apply IH.
Qed.

Lemma fold_store (parsed : list (float * float)) (st : state) :
  let st' := fold_left store parsed st in
  x_vals st' = x_vals st ++ map (fun ab => (fst ab * 60)%float) parsed /\
  y_vals st' = y_vals st ++ map snd parsed /\
  baseline st' = baseline st /\ peak_x_vals st' = peak_x_vals st /\
  peak_y_vals st' = peak_y_vals st /\ result st' = result st /\
  stdout st' = stdout st /\ figure st' = figure st.
Proof.
  revert st. induction parsed as [|ab parsed IH]; intros st; simpl.
  - rewrite !app_nil_r. repeat split; reflexivity.
  - destruct (IH (store st ab)) as (Hx & Hy & Hrest).
    rewrite Hx, Hy. simpl. rewrite <- !app_assoc. simpl.
    repeat split; try reflexivity; apply Hrest.
Qed.

Lemma read_row_Ok (row : list string) (st st' : state) :
  read_row float_of_string row st = Ok st' ->
  exists ab, row_values float_of_string row ab /\ st' = store st ab.
Proof.
  unfold read_row, to_float. intros H.
  change (getitem row 0) with (getitem row (Z.of_nat 0)) in H.
  change (getitem row 1) with (getitem row (Z.of_nat 1)) in H.
  rewrite !getitem_nth_error in H.
  destruct (nth_error row 0) as [c0|] eqn:E0; [|discriminate H].
  cbn [bind] in H.
  destruct (float_of_string c0) as [v0|] eqn:F0; [|discriminate H].
  cbn [bind] in H.
  destruct (nth_error row 1) as [c1|] eqn:E1; [|discriminate H].
  cbn [bind] in H.
  destruct (float_of_string c1) as [v1|] eqn:F1; [|discriminate H].
  cbn [bind] in H. injection H as <-.
  exists (v0, v1). split; [|reflexivity].
  exists c0, c1. auto.
Qed.

Lemma read_rows_Ok (reader : list (list string)) :
  forall st st', read_rows float_of_string reader st = Ok st' ->
  exists parsed, Forall2 (row_values float_of_string) reader parsed /\
                 st' = fold_left store parsed st.
Proof.
  induction reader as [|row reader IH]; intros st st' H; simpl in H.
  - injection H as <-. exists []. split; [constructor|reflexivity].
  - apply bind_Ok in H. destruct H as (st1 & H1 & H).
    apply read_row_Ok in H1. destruct H1 as (ab & Hab & ->).
    apply IH in H. destruct H as (parsed & Hp & ->).
    exists (ab :: parsed). split; [constructor; assumption|reflexivity].
Qed.

Lemma read_rows_loaded (reader : list (list string)) (st0 : state) :
  read_rows float_of_string reader init = Ok st0 -> loaded st0.
Proof.
  intros H. apply read_rows_Ok in H. destruct H as (parsed & _ & ->).
  destruct (fold_store parsed init) as (Hx & Hy & Hb & Hpx & Hpy & Hr & Ho & Hf).
  unfold loaded. rewrite Hx, Hy, Hb, Hpx, Hpy, Hr, Ho, Hf. simpl.
  rewrite !length_map. repeat split; reflexivity.
Qed.

(** *** The peak loop *)

Lemma peak_body_at (start stop : float) (st : state)
  (px rx py ry : list float) (t s : float) :
  x_vals st = px ++ t :: rx -> y_vals st = py ++ s :: ry ->
  List.length px = List.length py ->
  peak_body start stop (Z.of_nat (List.length py)) st =
  Ok (if kept start stop t then take_sample st (t, s) else st).
Proof.
  intros Hx Hy Hl. unfold peak_body, kept. rewrite Hx, <- Hl, getitem_at. simpl.
  destruct (t <? start)%float; simpl; [reflexivity|].
  destruct (stop <? t)%float; simpl; [reflexivity|].
  rewrite Hy, Hl, getitem_at. simpl.
  unfold take_sample. simpl.
  destruct (s <? baseline st)%float; simpl; rewrite Hy, getitem_at; reflexivity.
Qed.

Lemma take_sample_frame (st : state) (smp : float * float) :
  x_vals (take_sample st smp) = x_vals st /\
  y_vals (take_sample st smp) = y_vals st.
Proof.
  unfold take_sample. simpl.
  destruct (snd smp <? baseline st)%float; split; reflexivity.
Qed.

Lemma peak_loop_spec (start stop : float) (ry : list float) :
  forall (rx px py : list float) (st : state),
  x_vals st = px ++ rx -> y_vals st = py ++ ry ->
  List.length px = List.length py -> List.length rx = List.length ry ->
  peak_loop start stop ry (Z.of_nat (List.length py) - 1) st =
  Ok (fold_left take_sample (window start stop (combine rx ry)) st).
Proof.
  induction ry as [|s ry IH]; intros rx px py st Hx Hy Hl Hr.
  - destruct rx; [reflexivity|discriminate Hr].
  - destruct rx as [|t rx]; [discriminate Hr|]. injection Hr as Hr.
    cbn [peak_loop].
    replace (Z.of_nat (List.length py) - 1 + 1)%Z
      with (Z.of_nat (List.length py)) by lia.
    rewrite (peak_body_at start stop st px rx py ry t s Hx Hy Hl).
    cbn [bind].
    replace (Z.of_nat (List.length py))
      with (Z.of_nat (List.length (py ++ [s])) - 1)%Z
      by (rewrite length_app; simpl; lia).
    set (st' := if kept start stop t then take_sample st (t, s) else st).
    assert (Hf : x_vals st' = x_vals st /\ y_vals st' = y_vals st).
    { unfold st'. destruct (kept start stop t);
        [apply take_sample_frame|split; reflexivity]. }
    destruct Hf as [Hfx Hfy].
    rewrite (IH rx (px ++ [t]) (py ++ [s]) st').
    + unfold st', window. simpl.
      destruct (kept start stop t); reflexivity.
    + rewrite Hfx, Hx, <- app_assoc. reflexivity.
    + rewrite Hfy, Hy, <- app_assoc. reflexivity.
    + rewrite !length_app. simpl. lia.
    + exact Hr.
Qed.

Lemma fold_take_sample (l : list (float * float)) (st : state) :
  let st' := fold_left take_sample l st in
  peak_x_vals st' = peak_x_vals st ++ map fst l /\
  peak_y_vals st' = peak_y_vals st ++ map snd l /\
  baseline st' = fold_left lower (map snd l) (baseline st) /\
  x_vals st' = x_vals st /\ y_vals st' = y_vals st /\
  result st' = result st /\ stdout st' = stdout st /\ figure st' = figure st.
Proof.
  revert st. induction l as [|[t s] l IH]; intros st; simpl.
  - rewrite !app_nil_r. repeat split; reflexivity.
  - destruct (IH (take_sample st (t, s)))
      as (Hpx & Hpy & Hb & Hx & Hy & Hr & Ho & Hf).
    rewrite Hpx, Hpy, Hb, Hx, Hy, Hr, Ho, Hf.
    unfold take_sample, lower. simpl.
    destruct (s <? baseline st)%float; simpl; rewrite <- !app_assoc;
      repeat split; reflexivity.
Qed.

Lemma derive_peak_spec (start stop : float) (st0 : state) :
  List.length (x_vals st0) = List.length (y_vals st0) ->
  derive_peak start stop st0 =
  Ok (fold_left take_sample (window start stop (series st0)) st0).
Proof.
  intros H. unfold derive_peak, series.
  apply (peak_loop_spec start stop (y_vals st0) (x_vals st0) [] [] st0);
    auto.
Qed.

(** What the peak loop leaves, read on the loaded state. *)
Lemma derive_peak_loaded (start stop : float) (st0 st1 : state) :
  loaded st0 -> derive_peak start stop st0 = Ok st1 ->
  peak_x_vals st1 = map fst (window start stop (series st0)) /\
  peak_y_vals st1 = map snd (window start stop (series st0)) /\
  baseline st1 =
    fold_left lower (map snd (window start stop (series st0))) infinity /\
  x_vals st1 = x_vals st0 /\ y_vals st1 = y_vals st0 /\
  result st1 = None /\ stdout st1 = [] /\ figure st1 = [].
Proof.
  intros (Hl & Hb & Hpx & Hpy & Hr & Ho & Hf) H.
  rewrite (derive_peak_spec start stop st0 Hl) in H. injection H as <-.
  destruct (fold_take_sample (window start stop (series st0)) st0)
    as (H1 & H2 & H3 & H4 & H5 & H6 & H7 & H8).
  rewrite H1, H2, H3, H4, H5, H6, H7, H8, Hb, Hpx, Hpy, Hr, Ho, Hf.
  repeat split; reflexivity.
Qed.

Lemma derive_peak_total (start stop : float) (st0 : state) :
  loaded st0 -> exists st1, derive_peak start stop st0 = Ok st1.
Proof.
  intros (Hl & _). rewrite (derive_peak_spec start stop st0 Hl). eauto.
Qed.

(** *** The whole script *)

Lemma run_spec (start stop : float) (reader : list (list string))
  (st0 st1 : state) :
  read_rows float_of_string reader init = Ok st0 ->
  derive_peak start stop st0 = Ok st1 ->
  run float_of_string float_str start stop reader = Ok (finish float_str st1).
Proof.
  intros H0 H1. unfold run. rewrite H0. cbn [bind]. rewrite H1. cbn [bind].
  pose proof (read_rows_loaded _ _ H0) as L.
  destruct (derive_peak_loaded start stop st0 st1 L H1) as (Hpx & Hpy & _).
  unfold integrate.
  rewrite trapz_spec.
  - reflexivity.
  - simpl. rewrite length_map, Hpx, Hpy, !length_map. reflexivity.
Qed.

End Loops.

(** *** The running minimum of lines 51-52 *)

Section Baseline.

Local Open Scope float_scope.

Lemma lower_not_nan (b s : float) :
  is_nan b = false -> is_nan s = false -> is_nan (lower b s) = false.
Proof. unfold lower. destruct (s <? b); auto. Qed.

Lemma lower_le (b s : float) :
  is_nan b = false -> is_nan s = false ->
  (lower b s <=? b) = true /\ (lower b s <=? s) = true.
Proof.
  intros Hb Hs. unfold lower. destruct (s <? b) eqn:E.
  - split; [apply ltb_leb, E|apply leb_refl, Hs].
  - split; [apply leb_refl, Hb|apply ltb_false_leb; assumption].
Qed.

Lemma fold_lower (l : list float) :
  forall b, is_nan b = false -> Forall (fun y => is_nan y = false) l ->
  let m := fold_left lower l b in
  (m = b \/ In m l) /\ (m <=? b) = true /\
  forall y, In y l -> (m <=? y) = true.
Proof.
  induction l as [|s l IH]; intros b Hb Hl; simpl.
  - split; [left; reflexivity|]. split; [apply leb_refl, Hb|]. intros y [].
  - inversion Hl as [|s' l' Hs Hl']; subst.
    destruct (IH (lower b s) (lower_not_nan b s Hb Hs) Hl') as (Hm & Hle & Hall).
    destruct (lower_le b s Hb Hs) as [Lb Ls].
    split; [|split].
    + destruct Hm as [Hm|Hm]; [|right; right; exact Hm].
      rewrite Hm. unfold lower. destruct (s <? b); [right; left|left]; reflexivity.
    + apply (leb_trans _ _ _ Hle Lb).
    + intros y [<-|Hy]; [apply (leb_trans _ _ _ Hle Ls)|apply Hall, Hy].
Qed.

(** Started from infinity, the accumulator ends on a minimum of a non-empty
    list of numbers. *)
Lemma fold_lower_minimum (l : list float) :
  l <> [] -> Forall (fun y => is_nan y = false) l ->
  is_minimum (fold_left lower l infinity) l.
Proof.
  intros Hne Hl.
  destruct (fold_lower l infinity eq_refl Hl) as (Hm & _ & Hall).
  split; [|exact Hall].
  destruct Hm as [Hm|Hm]; [|exact Hm].
  destruct l as [|y l]; [contradiction|].
  pose proof (Hall y (or_introl eq_refl)) as Hy.
  rewrite Hm in Hy. apply leb_infinity in Hy.
  rewrite Hm, <- Hy. left. reflexivity.
Qed.

(** One correction pass by a finite minimum leaves a minimum equal to zero. *)
Lemma corrected_minimum (b : float) (l : list float) :
  is_minimum b l -> is_finite b = true ->
  minimum_is_zero (map (fun y_val => y_val - b) l).
Proof.
  intros [Hin Hle] Hb. split.
  - exists (b - b). split.
    + apply in_map_iff. exists b. split; [reflexivity|exact Hin].
    + rewrite (sub_diag b Hb). reflexivity.
  - intros c Hc. apply in_map_iff in Hc. destruct Hc as (y & <- & Hy).
    apply sub_nonneg; [exact Hb|apply Hle, Hy].
Qed.

End Baseline.

(** * The claims of the specification *)

Section Claims.

Variable float_of_string : string -> option float.
Variable float_str : float -> string.

(** C3.  Load step: when every row yields two numbers, the script loads the
    Series whose times are the first numbers multiplied by 60 and whose
    signals are the second numbers unchanged, in the order of the rows. *)
Theorem load_stores_seconds_and_signal
  (reader : list (list string)) (parsed : list (float * float)) :
  Forall2 (row_values float_of_string) reader parsed ->
  exists st0,
    read_rows float_of_string reader init = Ok st0 /\
    x_vals st0 = map (fun ab => (fst ab * 60)%float) parsed /\
    y_vals st0 = map snd parsed /\
    series st0 = map (fun ab => ((fst ab * 60)%float, snd ab)) parsed.
Proof.
  intros H. exists (fold_left store parsed init).
  destruct (fold_store parsed init) as (Hx & Hy & _).
  split; [apply read_rows_values, H|].
  unfold series. rewrite Hx, Hy. simpl.
  repeat split; try reflexivity.
  clear. induction parsed as [|ab parsed IH]; simpl; [|rewrite IH]; reflexivity.
Qed.

(** C2, amended.  Windowing step: when the two bounds and every time of the
    Series are numbers (none is NaN), the Peak Series is the Series filtered
    to the samples with [start <= t <= stop], both bounds included, in their
    order. *)
Theorem peak_series_is_inclusive_window
  (start stop : float) (reader : list (list string)) (st0 : state) :
  read_rows float_of_string reader init = Ok st0 ->
  is_nan start = false -> is_nan stop = false ->
  Forall (fun t => is_nan t = false) (x_vals st0) ->
  exists st1,
    derive_peak start stop st0 = Ok st1 /\
    peak_series st1 =
      filter (fun smp => in_window start stop (fst smp)) (series st0) /\
    peak_x_vals st1 = map fst (peak_series st1) /\
    peak_y_vals st1 = map snd (peak_series st1).
Proof.
  intros H0 Hs He Ht.
  pose proof (read_rows_loaded _ _ _ H0) as L.
  destruct (derive_peak_total start stop st0 L) as [st1 H1]. exists st1.
  destruct (derive_peak_loaded start stop st0 st1 L H1) as (Hpx & Hpy & _).
  assert (E : peak_series st1 = window start stop (series st0)).
  { unfold peak_series. rewrite Hpx, Hpy.
    generalize (window start stop (series st0)). clear.
    induction l as [|[t s] l IH]; simpl; [|rewrite IH]; reflexivity. }
  split; [exact H1|]. rewrite E. split; [|split; assumption].
  unfold window. apply filter_ext_in. intros [t s] Hin. simpl.
  apply kept_in_window; try assumption.
  unfold series in Hin. apply in_combine_l in Hin.
  rewrite Forall_forall in Ht. apply Ht, Hin.
Qed.

(** C1, amended.  When every sample of the Series has a time below the start
    or above the end of the window, windowing yields an empty Peak Series and
    the script raises nothing: it runs to its end. *)
Theorem empty_window_runs_to_end
  (start stop : float) (reader : list (list string)) (st0 : state) :
  read_rows float_of_string reader init = Ok st0 ->
  Forall (fun t => (t <? start)%float = true \/ (stop <? t)%float = true)
    (x_vals st0) ->
  exists st1 st,
    derive_peak start stop st0 = Ok st1 /\ peak_series st1 = [] /\
    peak_x_vals st1 = [] /\ peak_y_vals st1 = [] /\
    run float_of_string float_str start stop reader = Ok st /\ ~ raises (run float_of_string float_str start stop reader).
Proof.
  intros H0 Hout.
  pose proof (read_rows_loaded _ _ _ H0) as L.
  destruct (derive_peak_total start stop st0 L) as [st1 H1].
  exists st1, (finish float_str st1).
  destruct (derive_peak_loaded start stop st0 st1 L H1) as (Hpx & Hpy & _).
  assert (W : window start stop (series st0) = []).
  { unfold window. rewrite <- (filter_false (series st0)).
    apply filter_ext_in.
    intros [t s] Hin. unfold series in Hin. apply in_combine_l in Hin.
    rewrite Forall_forall in Hout. unfold kept. simpl.
    destruct (Hout t Hin) as [-> | ->]; [reflexivity|].
    rewrite orb_true_r. reflexivity. }
  rewrite W in Hpx, Hpy. simpl in Hpx, Hpy.
  pose proof (run_spec float_of_string float_str start stop reader st0 st1 H0 H1)
    as R.
  unfold peak_series. rewrite Hpx, Hpy.
  repeat split; try assumption; try reflexivity.
  intros [e He]. rewrite R in He. discriminate He.
Qed.

(** The loop's test and the inclusive window keep the same samples of a
    Series whose times are numbers. *)
Lemma window_is_inclusive (start stop : float) (st0 : state) :
  is_nan start = false -> is_nan stop = false ->
  Forall (fun t => is_nan t = false) (x_vals st0) ->
  window start stop (series st0) =
  filter (fun smp => in_window start stop (fst smp)) (series st0).
Proof.
  intros Hs He Ht. unfold window. apply filter_ext_in.
  intros [t s] Hin. simpl. apply kept_in_window; try assumption.
  unfold series in Hin. apply in_combine_l in Hin.
  rewrite Forall_forall in Ht. apply Ht, Hin.
Qed.

(** C4, amended.  Baseline step: when no time of the Series is NaN, the Peak
    Series is not empty and none of its signals is NaN, the baseline is a
    minimum of the signals of exactly the samples with
    [start <= t <= stop], not of the full Series, and the first line printed
    is [Baseline is] followed by its value. *)
Theorem baseline_is_peak_minimum
  (start stop : float) (reader : list (list string)) (st0 st1 : state) :
  read_rows float_of_string reader init = Ok st0 ->
  is_nan start = false -> is_nan stop = false ->
  Forall (fun t => is_nan t = false) (x_vals st0) ->
  derive_peak start stop st0 = Ok st1 ->
  peak_y_vals st1 <> [] ->
  Forall (fun y => is_nan y = false) (peak_y_vals st1) ->
  peak_y_vals st1 =
    map snd (filter (fun smp => in_window start stop (fst smp)) (series st0)) /\
  is_minimum (baseline st1)
    (map snd (filter (fun smp => in_window start stop (fst smp)) (series st0))) /\
  exists st,
    run float_of_string float_str start stop reader = Ok st /\
    baseline st = baseline st1 /\
    nth_error (stdout st) 0 =
      Some ("Baseline is " ++ float_str (baseline st1))%string.
Proof.
  intros H0 Hs He Ht H1 Hne Hnan.
  pose proof (read_rows_loaded _ _ _ H0) as L.
  destruct (derive_peak_loaded start stop st0 st1 L H1)
    as (_ & Hpy & Hb & _ & _ & _ & Ho & _).
  rewrite (window_is_inclusive start stop st0 Hs He Ht) in Hpy, Hb.
  split; [exact Hpy|]. split.
  - rewrite Hb, <- Hpy. apply fold_lower_minimum; assumption.
  - exists (finish float_str st1).
    split; [apply (run_spec _ _ _ _ _ _ _ H0 H1)|].
    split; [reflexivity|]. simpl. rewrite Ho. reflexivity.
Qed.

(** C5.  Correction step: the corrected Peak Series has, at every index, the
    signal of the Peak Series minus the baseline, and the times of the Peak
    Series unchanged. *)
Theorem correction_subtracts_baseline
  (start stop : float) (reader : list (list string)) (st0 : state) :
  read_rows float_of_string reader init = Ok st0 ->
  exists st1 st,
    derive_peak start stop st0 = Ok st1 /\
    run float_of_string float_str start stop reader = Ok st /\
    peak_x_vals st = peak_x_vals st1 /\
    List.length (peak_y_vals st) = List.length (peak_y_vals st1) /\
    forall (k : nat) (y : float),
      nth_error (peak_y_vals st1) k = Some y ->
      nth_error (peak_y_vals st) k = Some (y - baseline st1)%float.
Proof.
  intros H0.
  pose proof (read_rows_loaded _ _ _ H0) as L.
  destruct (derive_peak_total start stop st0 L) as [st1 H1].
  exists st1, (finish float_str st1).
  split; [exact H1|]. split; [apply (run_spec _ _ _ _ _ _ _ H0 H1)|].
  split; [reflexivity|]. simpl. split; [apply length_map|].
  intros k y Hk. apply (map_nth_error (fun y_val => (y_val - baseline st1)%float)), Hk.
Qed.

(** C6, amended.  Integration step: the peak area is the sum of the terms
    [(t_{k+1} - t_k) * (y_k + y_{k+1}) / 2], [k = 0 .. N-2], of the corrected
    Peak Series, added as numpy's sum adds them; it is what [trapz] returns
    on these lists, and the second line printed is [Peak area: ] followed by
    its value.  With 8 samples at most, so fewer than 8 terms, the terms are
    added in index order and the area is the sum of the specification. *)
Theorem peak_area_sums_trapezoids
  (start stop : float) (reader : list (list string)) (st0 : state) :
  read_rows float_of_string reader init = Ok st0 ->
  exists st,
    run float_of_string float_str start stop reader = Ok st /\
    trapz (peak_y_vals st) (peak_x_vals st) =
      Ok (trapezoid_np_sum (peak_x_vals st) (peak_y_vals st)) /\
    result st = Some (trapezoid_np_sum (peak_x_vals st) (peak_y_vals st)) /\
    nth_error (stdout st) 1 =
      Some ("Peak area: " ++
            float_str (trapezoid_np_sum (peak_x_vals st) (peak_y_vals st)))%string /\
    (List.length (peak_x_vals st) <= 8 ->
     trapezoid_np_sum (peak_x_vals st) (peak_y_vals st) =
     trapezoid_sum (peak_x_vals st) (peak_y_vals st)).
Proof.
  intros H0.
  pose proof (read_rows_loaded _ _ _ H0) as L.
  destruct (derive_peak_total start stop st0 L) as [st1 H1].
  destruct (derive_peak_loaded start stop st0 st1 L H1)
    as (Hpx & Hpy & _ & _ & _ & _ & Ho & _).
  exists (finish float_str st1).
  split; [apply (run_spec _ _ _ _ _ _ _ H0 H1)|].
  split; [|split; [|split]].
  - apply trapz_spec. simpl. rewrite length_map, Hpx, Hpy, !length_map.
    reflexivity.
  - reflexivity.
  - simpl. rewrite Ho. reflexivity.
  - intros Hlen. unfold trapezoid_np_sum, trapezoid_sum, trapezoid_terms.
    apply np_sum_index_order.
    rewrite length_map, length_seq. lia.
Qed.

(** C7, amended.  When the Peak Series is not empty, none of its signals is
    NaN and its baseline is finite, the minimum of the corrected signals
    equals zero after the one correction pass of the script. *)
Theorem corrected_minimum_is_zero
  (start stop : float) (reader : list (list string)) (st0 st1 : state) :
  read_rows float_of_string reader init = Ok st0 ->
  derive_peak start stop st0 = Ok st1 ->
  peak_y_vals st1 <> [] ->
  Forall (fun y => is_nan y = false) (peak_y_vals st1) ->
  is_finite (baseline st1) = true ->
  exists st,
    run float_of_string float_str start stop reader = Ok st /\
    peak_y_vals st =
      map (fun y => (y - baseline st1)%float) (peak_y_vals st1) /\
    minimum_is_zero (peak_y_vals st).
Proof.
  intros H0 H1 Hne Hnan Hfin.
  pose proof (read_rows_loaded _ _ _ H0) as L.
  destruct (derive_peak_loaded start stop st0 st1 L H1) as (_ & Hpy & Hb & _).
  exists (finish float_str st1).
  split; [apply (run_spec _ _ _ _ _ _ _ H0 H1)|]. split; [reflexivity|].
  simpl. apply corrected_minimum; [|exact Hfin].
  rewrite Hb, <- Hpy. apply fold_lower_minimum; assumption.
Qed.

(** C8.  The fixture: rows (0, 5.0), (3, 10.0), (6, 8.0) and the window from
    0 s to 360 s give the Peak Series of all three samples at 0, 180 and
    360 s, the baseline 5, the corrected signals 0, 5, 3 and the area 1170. *)
Theorem fixture_gives_1170 :
  Forall2 (row_values float_of_string) fixture
    [(0, 5); (3, 10); (6, 8)]%float ->
  exists st1 st,
    read_rows float_of_string fixture init = Ok fixture_loaded /\
    derive_peak 0 360 fixture_loaded = Ok st1 /\
    peak_series st1 = [(0, 5); (180, 10); (360, 8)]%float /\
    run float_of_string float_str 0 360 fixture = Ok st /\
    peak_x_vals st = [0; 180; 360]%float /\
    baseline st = 5%float /\
    peak_y_vals st = [0; 5; 3]%float /\
    result st = Some 1170%float.
Proof.
  intros H.
  pose proof (read_rows_values float_of_string _ _ H init) as H0.
  change (fold_left store [(0, 5); (3, 10); (6, 8)]%float init)
    with fixture_loaded in H0.
  assert (H1 : derive_peak 0 360 fixture_loaded = Ok fixture_peak)
    by reflexivity.
  exists fixture_peak, (finish float_str fixture_peak).
  split; [exact H0|]. split; [exact H1|]. split; [reflexivity|].
  split; [apply (run_spec _ _ _ _ _ _ _ H0 H1)|].
  repeat split; reflexivity.
Qed.

(** C9.  Render step: the one line plotted is the Series as loaded, time
    against signal, and the peak loop, the correction and the integration
    leave the two lists of the Series as they were. *)
Theorem plot_shows_loaded_series
  (start stop : float) (reader : list (list string)) (st0 : state) :
  read_rows float_of_string reader init = Ok st0 ->
  exists st1 st,
    derive_peak start stop st0 = Ok st1 /\
    run float_of_string float_str start stop reader = Ok st /\
    (x_vals st1 = x_vals st0 /\ y_vals st1 = y_vals st0) /\
    (forall s, x_vals (correct s) = x_vals s /\ y_vals (correct s) = y_vals s) /\
    (forall s s', integrate float_str s = Ok s' ->
                  x_vals s' = x_vals s /\ y_vals s' = y_vals s) /\
    (x_vals st = x_vals st0 /\ y_vals st = y_vals st0) /\
    figure st = [(x_vals st0, y_vals st0)].
Proof.
  intros H0.
  pose proof (read_rows_loaded _ _ _ H0) as L.
  destruct (derive_peak_total start stop st0 L) as [st1 H1].
  destruct (derive_peak_loaded start stop st0 st1 L H1)
    as (_ & _ & _ & Hx & Hy & _ & _ & Hf).
  exists st1, (finish float_str st1).
  split; [exact H1|]. split; [apply (run_spec _ _ _ _ _ _ _ H0 H1)|].
  split; [split; assumption|].
  split; [intros s; split; reflexivity|].
  split.
  - intros s s' Hi. unfold integrate in Hi.
    apply bind_Ok in Hi. destruct Hi as (r & _ & Hi). injection Hi as <-.
    split; reflexivity.
  - simpl. rewrite Hx, Hy, Hf. repeat split; reflexivity.
Qed.

(** C10, amended.  When every sample of the Series has a time below the
    start or above the end of the window, the script does not fail: the
    baseline is still positive infinity and is printed so, the integral over
    the empty corrected Peak Series is 0 and is printed as the peak area. *)
Theorem empty_window_prints_infinity_and_zero
  (start stop : float) (reader : list (list string)) (st0 : state) :
  read_rows float_of_string reader init = Ok st0 ->
  Forall (fun t => (t <? start)%float = true \/ (stop <? t)%float = true)
    (x_vals st0) ->
  exists st,
    run float_of_string float_str start stop reader = Ok st /\
    baseline st = infinity /\
    peak_x_vals st = [] /\ peak_y_vals st = [] /\
    trapz (peak_y_vals st) (peak_x_vals st) = Ok 0%float /\
    result st = Some 0%float /\
    stdout st = [("Baseline is " ++ float_str infinity)%string;
                 ("Peak area: " ++ float_str 0)%string].
Proof.
  intros H0 Hout.
  pose proof (read_rows_loaded _ _ _ H0) as L.
  destruct (derive_peak_total start stop st0 L) as [st1 H1].
  destruct (derive_peak_loaded start stop st0 st1 L H1)
    as (Hpx & Hpy & Hb & _ & _ & _ & Ho & _).
  assert (W : window start stop (series st0) = []).
  { unfold window. rewrite <- (filter_false (series st0)).
    apply filter_ext_in.
    intros [t s] Hin. unfold series in Hin. apply in_combine_l in Hin.
    rewrite Forall_forall in Hout. unfold kept. simpl.
    destruct (Hout t Hin) as [-> | ->]; [reflexivity|].
    rewrite orb_true_r. reflexivity. }
  rewrite W in Hpx, Hpy, Hb. simpl in Hpx, Hpy, Hb.
  exists (finish float_str st1).
  split; [apply (run_spec _ _ _ _ _ _ _ H0 H1)|].
  unfold finish, correct, print_baseline. simpl.
  rewrite Hpx, Hpy, Hb, Ho. simpl.
  repeat split; reflexivity.
Qed.

End Claims.

(** * The claims on concrete inputs

    The rows are read with [read_float] and printed with [show_float]. *)

Section Examples.

Local Open Scope float_scope.

Ltac rows_read :=
  repeat (first [ apply Forall2_nil
                | apply Forall2_cons;
                  [eexists; eexists; repeat split; reflexivity|] ]).

Ltac all_hold := repeat constructor.

(** The three rows of the fixture read as the numbers of the specification. *)
Lemma fixture_rows_read :
  Forall2 (row_values read_float) fixture [(0, 5); (3, 10); (6, 8)].
Proof. rows_read. Qed.

(** C3 on the fixture. *)
Lemma fixture_is_loaded :
  Forall2 (row_values read_float) fixture [(0, 5); (3, 10); (6, 8)] /\
  exists st0,
    read_rows read_float fixture init = Ok st0 /\
    x_vals st0 = map (fun ab => fst ab * 60) [(0, 5); (3, 10); (6, 8)] /\
    y_vals st0 = map snd [(0, 5); (3, 10); (6, 8)] /\
    series st0 =
      map (fun ab => (fst ab * 60, snd ab)) [(0, 5); (3, 10); (6, 8)].
Proof.
  split; [rows_read|].
  apply (load_stores_seconds_and_signal read_float fixture
           [(0, 5); (3, 10); (6, 8)]).
  rows_read.
Defined.

(** C2 as stated fails on a time that is NaN: neither bound comparison of
    line 44 holds, the sample is kept, and it is not within the window. *)
Lemma nan_time_is_kept :
  exists st0 st1,
    read_rows read_float nan_time_row init = Ok st0 /\
    derive_peak PEAK_START_TIME PEAK_END_TIME st0 = Ok st1 /\
    peak_series st1 = [(nan, 1)] /\
    filter (fun smp => in_window PEAK_START_TIME PEAK_END_TIME (fst smp))
      (series st0) = [] /\
    peak_series st1 <>
      filter (fun smp => in_window PEAK_START_TIME PEAK_END_TIME (fst smp))
        (series st0).
Proof.
  eexists. eexists.
  split; [vm_compute; reflexivity|].
  split; [vm_compute; reflexivity|].
  split; [reflexivity|]. split; [reflexivity|].
  vm_compute. discriminate.
Qed.

(** C2, amended, on the fixture and the window of the script: only the
    sample at 180 s is within 150 s and 300 s. *)
Lemma fixture_window_of_script :
  read_rows read_float fixture init = Ok fixture_loaded /\
  exists st1,
    derive_peak PEAK_START_TIME PEAK_END_TIME fixture_loaded = Ok st1 /\
    peak_series st1 =
      filter (fun smp => in_window PEAK_START_TIME PEAK_END_TIME (fst smp))
        (series fixture_loaded) /\
    peak_x_vals st1 = map fst (peak_series st1) /\
    peak_y_vals st1 = map snd (peak_series st1).
Proof.
  split; [reflexivity|].
  apply (peak_series_is_inclusive_window read_float
           PEAK_START_TIME PEAK_END_TIME fixture fixture_loaded).
  - reflexivity.
  - reflexivity.
  - reflexivity.
  - all_hold.
Defined.

(** C1 as stated fails: with its one sample before the window the script
    raises nothing. *)
Lemma early_row_raises_nothing :
  read_rows read_float early_row init = Ok early_loaded /\
  Forall (fun t => in_window PEAK_START_TIME PEAK_END_TIME t = false)
    (x_vals early_loaded) /\
  exists st,
    main read_float show_float early_row = Ok st /\
    ~ raises (main read_float show_float early_row).
Proof.
  split; [reflexivity|]. split; [all_hold|].
  eexists. split; [vm_compute; reflexivity|].
  intros [e He]. vm_compute in He. discriminate He.
Qed.

(** C1, amended, on the same input. *)
Lemma early_row_runs_to_end :
  read_rows read_float early_row init = Ok early_loaded /\
  exists st1 st,
    derive_peak PEAK_START_TIME PEAK_END_TIME early_loaded = Ok st1 /\
    peak_series st1 = [] /\
    peak_x_vals st1 = [] /\ peak_y_vals st1 = [] /\
    run read_float show_float PEAK_START_TIME PEAK_END_TIME early_row = Ok st /\
    ~ raises (run read_float show_float PEAK_START_TIME PEAK_END_TIME early_row).
Proof.
  split; [reflexivity|].
  apply (empty_window_runs_to_end read_float show_float
           PEAK_START_TIME PEAK_END_TIME early_row early_loaded).
  - reflexivity.
  - constructor; [left; reflexivity|constructor].
Defined.

(** C4 as stated fails on a signal that is NaN: line 51 never holds for it,
    the baseline stays at infinity, which is no signal of the Peak Series. *)
Lemma nan_signal_leaves_infinity :
  exists st0 st1,
    read_rows read_float nan_signal_row init = Ok st0 /\
    derive_peak PEAK_START_TIME PEAK_END_TIME st0 = Ok st1 /\
    peak_y_vals st1 = [nan] /\ baseline st1 = infinity /\
    ~ is_minimum (baseline st1) (peak_y_vals st1).
Proof.
  eexists. eexists.
  split; [vm_compute; reflexivity|].
  split; [vm_compute; reflexivity|].
  split; [reflexivity|]. split; [reflexivity|].
  intros [_ H]. specialize (H nan (or_introl eq_refl)).
  vm_compute in H. discriminate H.
Qed.

(** With a time that is NaN the baseline can come from outside the window:
    the sample at NaN is kept, its signal 1 becomes the baseline, and the one
    sample within 150 s and 300 s has signal 5. *)
Lemma nan_time_sets_baseline :
  exists st0 st1,
    read_rows read_float nan_time_then_peak_rows init = Ok st0 /\
    derive_peak PEAK_START_TIME PEAK_END_TIME st0 = Ok st1 /\
    baseline st1 = 1 /\
    map snd (filter (fun smp =>
                       in_window PEAK_START_TIME PEAK_END_TIME (fst smp))
               (series st0)) = [5].
Proof.
  eexists. eexists.
  split; [vm_compute; reflexivity|].
  split; [vm_compute; reflexivity|].
  split; reflexivity.
Qed.

(** C4, amended, on the fixture and the window of the script: the baseline
    10 is the signal of the one sample within 150 s and 300 s, not the
    smallest signal 5 of the Series. *)
Lemma fixture_baseline :
  read_rows read_float fixture init = Ok fixture_loaded /\
  derive_peak PEAK_START_TIME PEAK_END_TIME fixture_loaded
    = Ok fixture_script_peak /\
  peak_y_vals fixture_script_peak =
    map snd (filter (fun smp =>
                       in_window PEAK_START_TIME PEAK_END_TIME (fst smp))
               (series fixture_loaded)) /\
  is_minimum (baseline fixture_script_peak)
    (map snd (filter (fun smp =>
                        in_window PEAK_START_TIME PEAK_END_TIME (fst smp))
                (series fixture_loaded))) /\
  exists st,
    run read_float show_float PEAK_START_TIME PEAK_END_TIME fixture = Ok st /\
    baseline st = baseline fixture_script_peak /\
    nth_error (stdout st) 0 =
      Some ("Baseline is " ++ show_float (baseline fixture_script_peak))%string.
Proof.
  split; [reflexivity|]. split; [reflexivity|].
  apply (baseline_is_peak_minimum read_float show_float
           PEAK_START_TIME PEAK_END_TIME
           fixture fixture_loaded fixture_script_peak).
  - reflexivity.
  - reflexivity.
  - reflexivity.
  - all_hold.
  - reflexivity.
  - discriminate.
  - all_hold.
Defined.

(** C5 on the fixture. *)
Lemma fixture_correction :
  read_rows read_float fixture init = Ok fixture_loaded /\
  exists st1 st,
    derive_peak 0 360 fixture_loaded = Ok st1 /\
    run read_float show_float 0 360 fixture = Ok st /\
    peak_x_vals st = peak_x_vals st1 /\
    List.length (peak_y_vals st) = List.length (peak_y_vals st1) /\
    forall (k : nat) (y : float),
      nth_error (peak_y_vals st1) k = Some y ->
      nth_error (peak_y_vals st) k = Some (y - baseline st1).
Proof.
  split; [reflexivity|].
  apply (correction_subtracts_baseline read_float show_float 0 360
           fixture fixture_loaded).
  reflexivity.
Defined.

(** C6 as stated fails from nine samples on: numpy adds the eight trapezoids
    with eight partial sums, and the last bit differs from that of the sum in
    index order (88.799999999999983 printed for 88.799999999999997). *)
Lemma nine_samples_round_differently :
  exists st0 st,
    read_rows read_float nine_rows init = Ok st0 /\
    main read_float show_float nine_rows = Ok st /\
    List.length (peak_x_vals st) = 9%nat /\
    result st = Some 0x1.6333333333332p+6 /\
    trapezoid_sum (peak_x_vals st) (peak_y_vals st) = 0x1.6333333333333p+6 /\
    result st <> Some (trapezoid_sum (peak_x_vals st) (peak_y_vals st)).
Proof.
  eexists. eexists.
  split; [vm_compute; reflexivity|].
  split; [vm_compute; reflexivity|].
  split; [reflexivity|]. split; [reflexivity|]. split; [reflexivity|].
  intros H.
  apply (f_equal (fun o => match o with
                           | Some x => x <? 0x1.6333333333333p+6
                           | None => false
                           end)) in H.
  vm_compute in H. discriminate H.
Qed.

(** C6, amended, on the fixture. *)
Lemma fixture_area :
  read_rows read_float fixture init = Ok fixture_loaded /\
  exists st,
    run read_float show_float 0 360 fixture = Ok st /\
    trapz (peak_y_vals st) (peak_x_vals st) =
      Ok (trapezoid_np_sum (peak_x_vals st) (peak_y_vals st)) /\
    result st = Some (trapezoid_np_sum (peak_x_vals st) (peak_y_vals st)) /\
    nth_error (stdout st) 1 =
      Some ("Peak area: " ++
            show_float (trapezoid_np_sum (peak_x_vals st) (peak_y_vals st)))%string /\
    (List.length (peak_x_vals st) <= 8 ->
     trapezoid_np_sum (peak_x_vals st) (peak_y_vals st) =
     trapezoid_sum (peak_x_vals st) (peak_y_vals st)).
Proof.
  split; [reflexivity|].
  apply (peak_area_sums_trapezoids read_float show_float 0 360
           fixture fixture_loaded).
  reflexivity.
Defined.

(** C7 as stated fails on an infinite signal: the baseline is infinity and
    the corrected signal, infinity minus infinity, is NaN. *)
Lemma inf_signal_corrects_to_nan :
  exists st0 st1 st,
    read_rows read_float inf_signal_row init = Ok st0 /\
    derive_peak PEAK_START_TIME PEAK_END_TIME st0 = Ok st1 /\
    peak_y_vals st1 = [infinity] /\
    main read_float show_float inf_signal_row = Ok st /\
    peak_y_vals st = [nan] /\
    ~ minimum_is_zero (peak_y_vals st).
Proof.
  eexists. eexists. eexists.
  split; [vm_compute; reflexivity|].
  split; [vm_compute; reflexivity|].
  split; [reflexivity|].
  split; [vm_compute; reflexivity|].
  split; [reflexivity|].
  intros [_ H]. specialize (H nan (or_introl eq_refl)).
  vm_compute in H. discriminate H.
Qed.

(** C7, amended, on the fixture. *)
Lemma fixture_corrected_minimum :
  read_rows read_float fixture init = Ok fixture_loaded /\
  derive_peak 0 360 fixture_loaded = Ok fixture_peak /\
  exists st,
    run read_float show_float 0 360 fixture = Ok st /\
    peak_y_vals st =
      map (fun y => y - baseline fixture_peak) (peak_y_vals fixture_peak) /\
    minimum_is_zero (peak_y_vals st).
Proof.
  split; [reflexivity|]. split; [reflexivity|].
  apply (corrected_minimum_is_zero read_float show_float 0 360
           fixture fixture_loaded fixture_peak).
  - reflexivity.
  - reflexivity.
  - discriminate.
  - all_hold.
  - reflexivity.
Defined.

(** C8 with the rows read by [read_float]. *)
Lemma fixture_read_gives_1170 :
  Forall2 (row_values read_float) fixture [(0, 5); (3, 10); (6, 8)] /\
  exists st1 st,
    read_rows read_float fixture init = Ok fixture_loaded /\
    derive_peak 0 360 fixture_loaded = Ok st1 /\
    peak_series st1 = [(0, 5); (180, 10); (360, 8)] /\
    run read_float show_float 0 360 fixture = Ok st /\
    peak_x_vals st = [0; 180; 360] /\
    baseline st = 5 /\
    peak_y_vals st = [0; 5; 3] /\
    result st = Some 1170.
Proof.
  split; [rows_read|].
  apply (fixture_gives_1170 read_float show_float).
  rows_read.
Defined.

(** C9 on the fixture. *)
Lemma fixture_plot :
  read_rows read_float fixture init = Ok fixture_loaded /\
  exists st1 st,
    derive_peak 0 360 fixture_loaded = Ok st1 /\
    run read_float show_float 0 360 fixture = Ok st /\
    (x_vals st1 = x_vals fixture_loaded /\ y_vals st1 = y_vals fixture_loaded) /\
    (forall s, x_vals (correct s) = x_vals s /\ y_vals (correct s) = y_vals s) /\
    (forall s s', integrate show_float s = Ok s' ->
                  x_vals s' = x_vals s /\ y_vals s' = y_vals s) /\
    (x_vals st = x_vals fixture_loaded /\ y_vals st = y_vals fixture_loaded) /\
    figure st = [(x_vals fixture_loaded, y_vals fixture_loaded)].
Proof.
  split; [reflexivity|].
  apply (plot_shows_loaded_series read_float show_float 0 360
           fixture fixture_loaded).
  reflexivity.
Defined.

(** C10 as stated fails on a time that is NaN: no sample lies within the
    window, yet line 44 skips nothing, the sample stays in the Peak Series
    and the baseline becomes its signal. *)
Lemma nan_time_moves_baseline :
  exists st0 st,
    read_rows read_float nan_time_row init = Ok st0 /\
    Forall (fun t => in_window PEAK_START_TIME PEAK_END_TIME t = false)
      (x_vals st0) /\
    main read_float show_float nan_time_row = Ok st /\
    baseline st = 1 /\
    stdout st = ["Baseline is 1.0"; "Peak area: 0.0"]%string /\
    baseline st <> infinity.
Proof.
  eexists. eexists.
  split; [vm_compute; reflexivity|].
  split; [all_hold|].
  split; [vm_compute; reflexivity|].
  split; [reflexivity|]. split; [reflexivity|].
  intros H. apply (f_equal is_infinity) in H. vm_compute in H. discriminate H.
Qed.

(** C10, amended, on the sample before the window. *)
Lemma early_row_prints_infinity_and_zero :
  read_rows read_float early_row init = Ok early_loaded /\
  exists st,
    run read_float show_float PEAK_START_TIME PEAK_END_TIME early_row = Ok st /\
    baseline st = infinity /\
    peak_x_vals st = [] /\ peak_y_vals st = [] /\
    trapz (peak_y_vals st) (peak_x_vals st) = Ok 0 /\
    result st = Some 0 /\
    stdout st = [("Baseline is " ++ show_float infinity)%string;
                 ("Peak area: " ++ show_float 0)%string].
Proof.
  split; [reflexivity|].
  apply (empty_window_prints_infinity_and_zero read_float show_float
           PEAK_START_TIME PEAK_END_TIME early_row early_loaded).
  - reflexivity.
  - constructor; [left; reflexivity|constructor].
Defined.

End Examples.

(** * Further properties of the script *)

Section Failures.

Variable float_of_string : string -> option float.
Variable float_str : float -> string.

Lemma row_fault_none (row : list string) :
  row_fault float_of_string row = None <->
  exists ab, row_values float_of_string row ab.
Proof.
  unfold row_fault, row_values. split.
  - destruct (nth_error row 0) as [c0|]; [|discriminate].
    destruct (float_of_string c0) as [a|] eqn:F0; [|discriminate].
    destruct (nth_error row 1) as [c1|]; [|discriminate].
    destruct (float_of_string c1) as [b|] eqn:F1; [|discriminate].
    intros _. exists (a, b), c0, c1. auto.
  - intros (ab & c0 & c1 & -> & -> & -> & ->). reflexivity.
Qed.

Lemma read_row_fault (row : list string) (e : exn) (st : state) :
  row_fault float_of_string row = Some e ->
  read_row float_of_string row st = Raise e.
Proof.
  unfold row_fault, read_row, to_float.
  change (getitem row 0) with (getitem row (Z.of_nat 0)).
  change (getitem row 1) with (getitem row (Z.of_nat 1)).
  rewrite !getitem_nth_error.
  destruct (nth_error row 0) as [c0|]; cbn [bind]; [|congruence].
  destruct (float_of_string c0) as [a|]; cbn [bind]; [|congruence].
  destruct (nth_error row 1) as [c1|]; cbn [bind]; [|congruence].
  destruct (float_of_string c1) as [b|]; cbn [bind]; [discriminate|congruence].
Qed.

Lemma read_rows_app (pre rest : list (list string)) (st : state) :
  read_rows float_of_string (pre ++ rest) st =
  (st' <- read_rows float_of_string pre st ;;
   read_rows float_of_string rest st').
Proof.
  revert st. induction pre as [|row pre IH]; intros st; simpl.
  - reflexivity.
  - destruct (read_row float_of_string row st) as [st1|e]; simpl;
      [apply IH|reflexivity].
Qed.

(** X1.  The script runs to its end exactly when every row yields two
    numbers: past the read loop nothing can raise, the indices of the peak
    loop stay in range and the two lists handed to [trapz] have one length.
    It then has printed two lines and drawn one. *)
Theorem run_succeeds_iff_rows_good
  (start stop : float) (reader : list (list string)) :
  ((exists st, run float_of_string float_str start stop reader = Ok st) <->
   (exists parsed, Forall2 (row_values float_of_string) reader parsed)) /\
  (forall st, run float_of_string float_str start stop reader = Ok st ->
     List.length (stdout st) = 2 /\ List.length (figure st) = 1 /\
     result st <> None).
Proof.
  split; [split|].
  - intros [st H]. unfold run in H.
    apply bind_Ok in H. destruct H as (st0 & H0 & _).
    apply read_rows_Ok in H0. destruct H0 as (parsed & Hp & _). eauto.
  - intros [parsed Hp].
    pose proof (read_rows_values float_of_string _ _ Hp init) as H0.
    pose proof (read_rows_loaded _ _ _ H0) as L.
    destruct (derive_peak_total start stop _ L) as [st1 H1].
    exists (finish float_str st1). apply (run_spec _ _ _ _ _ _ _ H0 H1).
  - intros st H. pose proof H as H'. unfold run in H'.
    apply bind_Ok in H'. destruct H' as (st0 & H0 & H').
    apply bind_Ok in H'. destruct H' as (st1 & H1 & _).
    pose proof (read_rows_loaded _ _ _ H0) as L.
    destruct (derive_peak_loaded start stop st0 st1 L H1)
      as (_ & _ & _ & _ & _ & _ & Ho & Hf).
    rewrite (run_spec _ _ _ _ _ _ _ H0 H1) in H. injection H as <-.
    simpl. rewrite Ho, Hf. repeat split; discriminate.
Qed.

(** X2.  When the rows before a row yield two numbers each and that row does
    not, the script raises what lines 33-34 raise on it: [IndexError] for a
    missing cell, [ValueError] for a cell that is no number, the first cell
    being looked at before the second is even fetched. *)
Theorem run_raises_at_first_bad_row
  (start stop : float) (pre rest : list (list string))
  (parsed : list (float * float)) (row : list string) (e : exn) :
  Forall2 (row_values float_of_string) pre parsed ->
  row_fault float_of_string row = Some e ->
  run float_of_string float_str start stop (pre ++ row :: rest) = Raise e.
Proof.
  intros Hp He. unfold run.
  rewrite read_rows_app, (read_rows_values _ _ _ Hp). cbn [bind read_rows].
  rewrite (read_row_fault _ _ _ He). reflexivity.
Qed.

End Failures.

(** ** More binary64 facts: what is never negative, and what NaN absorbs *)

Section Signs.

Lemma SFnonneg_not_neg (x : spec_float) :
  SFnonneg x = true -> SFnot_neg x = true.
Proof. destruct x as [s|s| |s m e]; simpl; congruence. Qed.

Lemma SFltb_zero (x : spec_float) :
  SFltb x (S754_zero false) = negb (SFnot_neg x).
Proof. destruct x as [s|[]| |[] m e]; reflexivity. Qed.

(** A difference is never negative when the float taken away is at most the
    other one, infinities included. *)
Lemma SFsub_not_neg (x y : spec_float) :
  valid_binary x = true -> valid_binary y = true ->
  SFleb y x = true -> SFnot_neg (SF64sub x y) = true.
Proof.
  intros Vx Vy L.
  destruct (SFfinite y) eqn:Fy.
  - apply SFnonneg_not_neg, SFsub_nonneg; assumption.
  - destruct y as [sy|[]| |sy my ey]; try discriminate Fy;
      destruct x as [sx|[]| |[] mx ex]; try discriminate L; reflexivity.
Qed.

Lemma SFmul_not_neg (x y : spec_float) :
  SFnot_neg x = true -> SFnot_neg y = true -> SFnot_neg (SF64mul x y) = true.
Proof.
  destruct x as [sx|[]| |[] mx ex], y as [sy|[]| |[] my ey];
    simpl; try discriminate; try reflexivity.
  intros _ _. apply SFnonneg_not_neg, binary_round_aux_nonneg. lia.
Qed.

Lemma SFadd_not_neg (x y : spec_float) :
  SFnot_neg x = true -> SFnot_neg y = true -> SFnot_neg (SF64add x y) = true.
Proof.
  destruct x as [[]|[]| |[] mx ex], y as [[]|[]| |[] my ey];
    simpl; try discriminate; try reflexivity.
  intros _ _. apply SFnonneg_not_neg.
  apply (binary_normalize_nonneg
           (Z.pos (fst (shl_align mx ex (Z.min ex ey)) +
                   fst (shl_align my ey (Z.min ex ey))))
           (Z.min ex ey)).
  lia.
Qed.

Lemma SFdiv_core_nonneg (m1 m2 : positive) (e1 e2 : Z) :
  (0 <= fst (fst (SFdiv_core_binary prec emax (Zpos m1) e1 (Zpos m2) e2)))%Z.
Proof.
  unfold SFdiv_core_binary.
  set (s := (e1 - e2 - _)%Z).
  set (m' := match s with Z.pos _ => Z.shiftl (Z.pos m1) s | 0%Z => Z.pos m1
             | Z.neg _ => 0%Z end).
  assert (Hm : (0 <= m')%Z).
  { unfold m'. destruct s; try lia. apply Z.shiftl_nonneg. lia. }
  pose proof (Z.div_pos m' (Zpos m2) Hm eq_refl) as Hq.
  unfold Z.div in Hq.
  destruct (Z.div_eucl m' (Z.pos m2)) as [q r]. exact Hq.
Qed.

Lemma SFdiv_not_neg (x : spec_float) (my : positive) (ey : Z) :
  SFnot_neg x = true ->
  SFnot_neg (SF64div x (S754_finite false my ey)) = true.
Proof.
  destruct x as [sx|[]| |[] mx ex]; simpl; try discriminate; try reflexivity.
  intros _.
  pose proof (SFdiv_core_nonneg mx my ex ey) as H.
  unfold SF64div, SFdiv.
  destruct (SFdiv_core_binary prec emax (Z.pos mx) ex (Z.pos my) ey)
    as [[mz ez] lz].
  apply SFnonneg_not_neg, binary_round_aux_nonneg. exact H.
Qed.

End Signs.

Section NotBelowZero.

Local Open Scope float_scope.

Lemma not_below_zero_spec (x : float) :
  not_below_zero x <-> SFnot_neg (Prim2SF x) = true.
Proof.
  unfold not_below_zero. rewrite ltb_spec, Prim2SF_zero, SFltb_zero.
  destruct (SFnot_neg (Prim2SF x)); simpl; split; congruence.
Qed.

Lemma is_nan_true (x : float) : is_nan x = true <-> x = nan.
Proof.
  split.
  - intros H. apply Prim2SF_inj. change (Prim2SF nan) with S754_nan.
    destruct (Prim2SF x) eqn:E; try reflexivity;
      assert (N : is_nan x = false)
        by (apply is_nan_false; rewrite E; discriminate);
      congruence.
  - intros ->. reflexivity.
Qed.

Lemma nan_not_below_zero (x : float) : is_nan x = true -> not_below_zero x.
Proof. intros H. apply is_nan_true in H. subst. reflexivity. Qed.

Lemma ltb_not_nan (x y : float) :
  (x <? y) = true -> is_nan x = false /\ is_nan y = false.
Proof. intros H. apply leb_not_nan, ltb_leb, H. Qed.

Lemma sub_not_below_zero (x y : float) :
  (y <=? x) = true -> not_below_zero (x - y).
Proof.
  rewrite leb_spec. intros L.
  apply not_below_zero_spec. rewrite sub_spec.
  apply SFsub_not_neg; auto using Prim2SF_valid.
Qed.

Lemma mul_not_below_zero (x y : float) :
  not_below_zero x -> not_below_zero y -> not_below_zero (x * y).
Proof.
  rewrite !not_below_zero_spec, mul_spec. apply SFmul_not_neg.
Qed.

Lemma add_not_below_zero (x y : float) :
  not_below_zero x -> not_below_zero y -> not_below_zero (x + y).
Proof.
  rewrite !not_below_zero_spec, add_spec. apply SFadd_not_neg.
Qed.

Lemma half_not_below_zero (x : float) :
  not_below_zero x -> not_below_zero (x / 2).
Proof.
  rewrite !not_below_zero_spec, div_spec. intros H.
  change (Prim2SF 2) with (S754_finite false 4503599627370496 (-51)).
  apply SFdiv_not_neg, H.
Qed.

(** NaN is absorbed by the four operations of the script. *)
Lemma sub_nan_l (y : float) : nan - y = nan.
Proof.
  apply Prim2SF_inj. rewrite sub_spec. change (Prim2SF nan) with S754_nan.
  reflexivity.
Qed.

Lemma sub_nan_r (x : float) : x - nan = nan.
Proof.
  apply Prim2SF_inj. rewrite sub_spec. change (Prim2SF nan) with S754_nan.
  destruct (Prim2SF x); reflexivity.
Qed.

Lemma add_nan_l (y : float) : nan + y = nan.
Proof.
  apply Prim2SF_inj. rewrite add_spec. change (Prim2SF nan) with S754_nan.
  reflexivity.
Qed.

Lemma add_nan_r (x : float) : x + nan = nan.
Proof. rewrite add_comm. apply add_nan_l. Qed.

Lemma mul_nan_l (y : float) : nan * y = nan.
Proof.
  apply Prim2SF_inj. rewrite mul_spec. change (Prim2SF nan) with S754_nan.
  reflexivity.
Qed.

Lemma mul_nan_r (x : float) : x * nan = nan.
Proof.
  apply Prim2SF_inj. rewrite mul_spec. change (Prim2SF nan) with S754_nan.
  destruct (Prim2SF x); reflexivity.
Qed.

Lemma half_nan : nan / 2 = nan.
Proof. reflexivity. Qed.

End NotBelowZero.

(** ** The running minimum on any signals, NaN included *)

Section AnySignals.

Local Open Scope float_scope.

Lemma fold_lower_any (l : list float) :
  forall b, is_nan b = false ->
  let m := fold_left lower l b in
  is_nan m = false /\ (m = b \/ In m l) /\ (m <=? b) = true /\
  forall y, In y l -> is_nan y = false -> (m <=? y) = true.
Proof.
  induction l as [|s l IH]; intros b Hb; simpl.
  - split; [exact Hb|]. split; [left; reflexivity|].
    split; [apply leb_refl, Hb|]. intros y [].
  - assert (Hn : is_nan (lower b s) = false).
    { unfold lower. destruct (s <? b) eqn:E; [|exact Hb].
      apply (ltb_not_nan _ _ E). }
    assert (Lb : (lower b s <=? b) = true).
    { unfold lower. destruct (s <? b) eqn:E;
        [apply ltb_leb, E|apply leb_refl, Hb]. }
    destruct (IH (lower b s) Hn) as (Hm & Hin & Hle & Hall).
    split; [exact Hm|]. split; [|split].
    + destruct Hin as [Hin|Hin]; [|right; right; exact Hin].
      rewrite Hin. unfold lower.
      destruct (s <? b); [right; left|left]; reflexivity.
    + apply (leb_trans _ _ _ Hle Lb).
    + intros y [<-|Hy] Hy'; [|apply Hall; assumption].
      apply (leb_trans _ _ _ Hle). apply (lower_le b s Hb Hy').
Qed.

(** Every signal minus the accumulated minimum is not below zero. *)
Lemma corrected_not_below_zero (l : list float) :
  Forall not_below_zero
    (map (fun y_val => y_val - fold_left lower l infinity) l).
Proof.
  destruct (fold_lower_any l infinity eq_refl) as (Hm & _ & _ & Hall).
  apply Forall_forall. intros c Hc.
  apply in_map_iff in Hc. destruct Hc as (y & <- & Hy).
  destruct (is_nan y) eqn:Ny.
  - apply is_nan_true in Ny. subst y. rewrite sub_nan_l. reflexivity.
  - apply sub_not_below_zero, Hall; assumption.
Qed.

End AnySignals.

(** ** Ascending times and the terms of the integral *)

Section Ascending.

Local Open Scope float_scope.

Lemma ascending_tail (a : float) (l : list float) :
  ascending (a :: l) -> ascending l.
Proof. destruct l as [|b l]; simpl; [trivial|intros [_ H]; exact H]. Qed.

Lemma ascending_head (a : float) (l : list float) :
  ascending (a :: l) -> Forall (fun b => (a <=? b) = true) l.
Proof.
  revert a. induction l as [|b l IH]; intros a H; [constructor|].
  destruct H as [Hab H]. constructor; [exact Hab|].
  apply (Forall_impl _ (fun c Hc => leb_trans _ _ _ Hab Hc)), IH, H.
Qed.

Lemma ascending_cons (a : float) (l : list float) :
  Forall (fun b => (a <=? b) = true) l -> ascending l -> ascending (a :: l).
Proof.
  destruct l as [|b l]; simpl; [trivial|].
  intros H Hl. inversion H; subst. split; assumption.
Qed.

(** The times the window keeps are ascending when those of the Series are. *)
Lemma ascending_window (p : float * float -> bool) (xs : list float) :
  forall ys, ascending xs ->
  ascending (map fst (filter p (combine xs ys))).
Proof.
  induction xs as [|a xs IH]; intros ys H; [exact I|].
  destruct ys as [|s ys]; [exact I|]. simpl.
  pose proof (IH ys (ascending_tail _ _ H)) as Hrest.
  destruct (p (a, s)); [|exact Hrest].
  simpl. apply ascending_cons; [|exact Hrest].
  apply Forall_forall. intros b Hb.
  apply in_map_iff in Hb. destruct Hb as ([t s'] & <- & Hin).
  apply filter_In in Hin. destruct Hin as [Hin _].
  apply in_combine_l in Hin.
  pose proof (ascending_head _ _ H) as Hall.
  rewrite Forall_forall in Hall. apply Hall, Hin.
Qed.

Lemma Forall_from_1 (P : float -> Prop) (a : list float) :
  Forall P a -> Forall P (from_1 a).
Proof. intros H. destruct H; [constructor|assumption]. Qed.

Lemma Forall_upto_last (P : float -> Prop) (a : list float) :
  Forall P a -> Forall P (upto_last a).
Proof.
  unfold upto_last.
  induction 1 as [|u a Hu Ha IH]; simpl; [constructor|].
  destruct a; [constructor|]. constructor; assumption.
Qed.

Lemma diff_cons2 (a b : float) (l : list float) :
  diff (a :: b :: l) = (b - a) :: diff (b :: l).
Proof. reflexivity. Qed.

Lemma diff_ascending (x : list float) :
  ascending x -> Forall not_below_zero (diff x).
Proof.
  induction x as [|a x IH]; intros H; [constructor|].
  destruct x as [|b x]; [constructor|].
  rewrite diff_cons2. destruct H as [Hab H].
  constructor; [apply sub_not_below_zero, Hab|apply IH, H].
Qed.

Lemma np_sum_not_below_zero (l : list float) :
  Forall not_below_zero l -> not_below_zero (np_sum l).
Proof.
  apply np_sum_closed; [reflexivity|apply add_not_below_zero].
Qed.

(** With ascending times and signals not below zero, no trapezoid and no sum
    of trapezoids is below zero. *)
Lemma trapezoid_sum_not_below_zero (x y : list float) :
  List.length x = List.length y ->
  ascending x -> Forall not_below_zero y ->
  not_below_zero (trapezoid_np_sum x y).
Proof.
  intros Hl Hx Hy. unfold trapezoid_np_sum, trapezoid_terms.
  rewrite <- (trapz_terms x y Hl).
  apply np_sum_not_below_zero.
  apply Forall_forall. intros v Hv.
  apply in_map_iff in Hv. destruct Hv as (w & <- & Hw).
  apply half_not_below_zero. revert w Hw. apply Forall_forall.
  apply Forall_zip_with; [apply mul_not_below_zero|apply diff_ascending, Hx|].
  apply Forall_zip_with;
    [apply add_not_below_zero|apply Forall_from_1, Hy
    |apply Forall_upto_last, Hy].
Qed.

End Ascending.

(** ** NaN in the Peak Series *)

Section Poison.

Local Open Scope float_scope.

Lemma pairs_cons2 (f : float -> float -> float) (a b : float) (l : list float) :
  zip_with f (from_1 (a :: b :: l)) (upto_last (a :: b :: l)) =
  f b a :: zip_with f (from_1 (b :: l)) (upto_last (b :: l)).
Proof. reflexivity. Qed.

(** Among two samples at least, a NaN shows in a pair of neighbours. *)
Lemma neighbours_nan (f : float -> float -> float) (l : list float) :
  (forall u, f nan u = nan) -> (forall u, f u nan = nan) ->
  (2 <= List.length l)%nat -> In nan l ->
  In nan (zip_with f (from_1 l) (upto_last l)).
Proof.
  intros Hl Hr. induction l as [|a l IH]; intros Hlen Hin; [inversion Hlen|].
  destruct l as [|b l]; [simpl in Hlen; lia|].
  rewrite pairs_cons2.
  destruct Hin as [->|[->|Hin]].
  - left. apply Hr.
  - left. apply Hl.
  - right. apply IH; [|right; exact Hin].
    destruct l; [contradiction|simpl; lia].
Qed.

Lemma zip_with_nan_r (f : float -> float -> float) (a b : list float) :
  (forall u, f u nan = nan) ->
  List.length a = List.length b -> In nan b -> In nan (zip_with f a b).
Proof.
  intros Hr. revert b.
  induction a as [|u a IH]; intros [|v b] Hlen Hin;
    try discriminate Hlen; [contradiction|].
  injection Hlen as Hlen. simpl.
  destruct Hin as [->|Hin]; [left; apply Hr|right; apply IH; assumption].
Qed.

Lemma zip_with_nan_l (f : float -> float -> float) (a b : list float) :
  (forall u, f nan u = nan) ->
  List.length a = List.length b -> In nan a -> In nan (zip_with f a b).
Proof.
  intros Hl. revert b.
  induction a as [|u a IH]; intros [|v b] Hlen Hin;
    try discriminate Hlen; [contradiction|].
  injection Hlen as Hlen. simpl.
  destruct Hin as [->|Hin]; [left; apply Hl|right; apply IH; assumption].
Qed.

Lemma np_sum_nan (l : list float) : In nan l -> np_sum l = nan.
Proof. apply np_sum_absorbed; [apply add_nan_l|apply add_nan_r]. Qed.

(** One NaN among the times or the signals of two samples at least makes
    the sum of the trapezoids NaN. *)
Lemma trapezoid_sum_nan (x y : list float) :
  List.length x = List.length y -> (2 <= List.length x)%nat ->
  In nan x \/ In nan y -> trapezoid_np_sum x y = nan.
Proof.
  intros Hl H2 Hin. unfold trapezoid_np_sum, trapezoid_terms.
  rewrite <- (trapz_terms x y Hl).
  apply np_sum_nan.
  change nan with ((fun v => v / 2) nan). apply in_map.
  assert (Hlen : List.length (diff x) =
                 List.length (zip_with PrimFloat.add (from_1 y) (upto_last y))).
  { rewrite length_diff, length_zip_with, length_upto_last. unfold from_1.
    rewrite Hl. destruct y; simpl; lia. }
  destruct Hin as [Hin|Hin].
  - apply zip_with_nan_l; [apply mul_nan_l|exact Hlen|].
    apply (neighbours_nan PrimFloat.sub);
      [apply sub_nan_l|apply sub_nan_r|exact H2|exact Hin].
  - apply zip_with_nan_r; [apply mul_nan_r|exact Hlen|].
    apply (neighbours_nan PrimFloat.add);
      [apply add_nan_l|apply add_nan_r|rewrite <- Hl; exact H2|exact Hin].
Qed.

End Poison.

(** ** The peak loop, the baseline and the area on every input *)

Section Robust.

Variable float_of_string : string -> option float.
Variable float_str : float -> string.

Lemma combine_fst_snd (l : list (float * float)) :
  combine (map fst l) (map snd l) = l.
Proof.
  induction l as [|[t s] l IH]; simpl; [|rewrite IH]; reflexivity.
Qed.

(** X3.  The peak loop never raises on a loaded Series and never lets its
    two lists drift apart: the Peak Series is the Series without the samples
    line 44 skips, in the same order, each kept time still paired with the
    signal of its own row. *)
Theorem peak_loop_keeps_paired_samples
  (start stop : float) (reader : list (list string)) (st0 : state) :
  read_rows float_of_string reader init = Ok st0 ->
  exists st1,
    derive_peak start stop st0 = Ok st1 /\
    peak_series st1 =
      filter (fun smp => kept start stop (fst smp)) (series st0) /\
    List.length (peak_x_vals st1) = List.length (peak_y_vals st1) /\
    List.length (peak_x_vals st1) <= List.length (x_vals st0) /\
    forall (k : nat) (t s : float),
      nth_error (peak_x_vals st1) k = Some t ->
      nth_error (peak_y_vals st1) k = Some s ->
      In (t, s) (series st0).
Proof.
  intros H0.
  pose proof (read_rows_loaded _ _ _ H0) as L.
  destruct (derive_peak_total start stop st0 L) as [st1 H1]. exists st1.
  destruct (derive_peak_loaded start stop st0 st1 L H1) as (Hpx & Hpy & _).
  destruct L as (Hlen & _).
  unfold peak_series. rewrite Hpx, Hpy, combine_fst_snd, !length_map.
  split; [exact H1|]. split; [reflexivity|]. split; [reflexivity|].
  split.
  - unfold window. etransitivity; [apply filter_length_le|].
    unfold series. rewrite length_combine. lia.
  - intros k t s Ht Hs.
    rewrite nth_error_map in Ht, Hs.
    destruct (nth_error (window start stop (series st0)) k) as [[t' s']|] eqn:E;
      [|discriminate Ht].
    injection Ht as <-. injection Hs as <-.
    apply nth_error_In in E. unfold window in E.
    apply filter_In in E. apply E.
Qed.

(** X4.  Whatever the signals, NaN included, the baseline the loop leaves is
    never NaN; it is infinity or one of the signals of the Peak Series, and
    it is at most every signal of the Peak Series that is a number. *)
Theorem baseline_is_never_nan
  (start stop : float) (reader : list (list string)) (st0 : state) :
  read_rows float_of_string reader init = Ok st0 ->
  exists st1 st,
    derive_peak start stop st0 = Ok st1 /\
    run float_of_string float_str start stop reader = Ok st /\
    baseline st = baseline st1 /\
    is_nan (baseline st1) = false /\
    (baseline st1 = infinity \/ In (baseline st1) (peak_y_vals st1)) /\
    forall y, In y (peak_y_vals st1) -> is_nan y = false ->
              (baseline st1 <=? y)%float = true.
Proof.
  intros H0.
  pose proof (read_rows_loaded _ _ _ H0) as L.
  destruct (derive_peak_total start stop st0 L) as [st1 H1].
  exists st1, (finish float_str st1).
  destruct (derive_peak_loaded start stop st0 st1 L H1) as (_ & Hpy & Hb & _).
  rewrite <- Hpy in Hb.
  destruct (fold_lower_any (peak_y_vals st1) infinity eq_refl)
    as (Hn & Hin & _ & Hall).
  rewrite <- Hb in Hn, Hin, Hall.
  split; [exact H1|]. split; [apply (run_spec _ _ _ _ _ _ _ H0 H1)|].
  split; [reflexivity|]. split; [exact Hn|]. split; [exact Hin|exact Hall].
Qed.

(** X5.  No corrected signal is below zero, on any input the script loads:
    a signal that is a number is at least the baseline, and a NaN stays
    NaN. *)
Theorem corrected_signals_never_below_zero
  (start stop : float) (reader : list (list string)) (st0 : state) :
  read_rows float_of_string reader init = Ok st0 ->
  exists st,
    run float_of_string float_str start stop reader = Ok st /\
    Forall not_below_zero (peak_y_vals st).
Proof.
  intros H0.
  pose proof (read_rows_loaded _ _ _ H0) as L.
  destruct (derive_peak_total start stop st0 L) as [st1 H1].
  exists (finish float_str st1).
  destruct (derive_peak_loaded start stop st0 st1 L H1) as (_ & Hpy & Hb & _).
  split; [apply (run_spec _ _ _ _ _ _ _ H0 H1)|].
  simpl. rewrite Hb, <- Hpy. apply corrected_not_below_zero.
Qed.

(** X6.  When the times of the Series are in ascending order, so are the
    times of the Peak Series, and the peak area is not below zero. *)
Theorem area_not_below_zero_for_ascending_times
  (start stop : float) (reader : list (list string)) (st0 : state) :
  read_rows float_of_string reader init = Ok st0 ->
  ascending (x_vals st0) ->
  exists st area,
    run float_of_string float_str start stop reader = Ok st /\
    ascending (peak_x_vals st) /\
    result st = Some area /\ not_below_zero area.
Proof.
  intros H0 Hasc.
  pose proof (read_rows_loaded _ _ _ H0) as L.
  destruct (derive_peak_total start stop st0 L) as [st1 H1].
  destruct (derive_peak_loaded start stop st0 st1 L H1)
    as (Hpx & Hpy & Hb & _).
  assert (Hx : ascending (peak_x_vals st1)).
  { rewrite Hpx. unfold window, series. apply ascending_window, Hasc. }
  eexists (finish float_str st1), _.
  split; [apply (run_spec _ _ _ _ _ _ _ H0 H1)|].
  split; [exact Hx|]. split; [reflexivity|].
  apply trapezoid_sum_not_below_zero.
  - simpl. rewrite length_map, Hpx, Hpy, !length_map. reflexivity.
  - exact Hx.
  - simpl. rewrite Hb, <- Hpy. apply corrected_not_below_zero.
Qed.

(** X7.  When the window keeps one sample or none, the peak area is 0.0
    whatever the signal, and is printed so. *)
Theorem lone_sample_has_no_area
  (start stop : float) (reader : list (list string)) (st0 st1 : state) :
  read_rows float_of_string reader init = Ok st0 ->
  derive_peak start stop st0 = Ok st1 ->
  List.length (peak_x_vals st1) <= 1 ->
  exists st,
    run float_of_string float_str start stop reader = Ok st /\
    result st = Some 0%float /\
    nth_error (stdout st) 1 = Some ("Peak area: " ++ float_str 0)%string.
Proof.
  intros H0 H1 Hlen.
  pose proof (read_rows_loaded _ _ _ H0) as L.
  destruct (derive_peak_loaded start stop st0 st1 L H1)
    as (_ & _ & _ & _ & _ & _ & Ho & _).
  exists (finish float_str st1).
  split; [apply (run_spec _ _ _ _ _ _ _ H0 H1)|].
  assert (E : trapezoid_np_sum (peak_x_vals st1)
                (map (fun y_val => (y_val - baseline st1)%float)
                     (peak_y_vals st1)) = 0%float).
  { unfold trapezoid_np_sum, trapezoid_terms.
    destruct (peak_x_vals st1) as [|a [|b l]]; try reflexivity.
    simpl in Hlen. lia. }
  unfold finish. simpl. rewrite E, Ho. split; reflexivity.
Qed.

(** X8.  When the window keeps two samples or more and one of their times or
    signals is NaN, the peak area is NaN. *)
Theorem nan_in_peak_makes_area_nan
  (start stop : float) (reader : list (list string)) (st0 st1 : state) :
  read_rows float_of_string reader init = Ok st0 ->
  derive_peak start stop st0 = Ok st1 ->
  2 <= List.length (peak_x_vals st1) ->
  In nan (peak_x_vals st1) \/ In nan (peak_y_vals st1) ->
  exists st,
    run float_of_string float_str start stop reader = Ok st /\
    result st = Some nan.
Proof.
  intros H0 H1 Hlen Hin.
  pose proof (read_rows_loaded _ _ _ H0) as L.
  destruct (derive_peak_loaded start stop st0 st1 L H1) as (Hpx & Hpy & _).
  exists (finish float_str st1).
  split; [apply (run_spec _ _ _ _ _ _ _ H0 H1)|].
  unfold finish. simpl. f_equal.
  apply trapezoid_sum_nan.
  - rewrite length_map, Hpx, Hpy, !length_map. reflexivity.
  - exact Hlen.
  - destruct Hin as [Hin|Hin]; [left; exact Hin|right].
    rewrite <- (sub_nan_l (baseline st1)).
    apply (in_map (fun y_val => (y_val - baseline st1)%float)), Hin.
Qed.

End Robust.

(** ** What the printed values depend on, and windows within windows *)

Section Windows.

Variable float_of_string : string -> option float.
Variable float_str : float -> string.

Local Open Scope float_scope.

Lemma SFltb_leb_trans (x y z : spec_float) :
  SFltb x y = true -> SFleb y z = true -> SFltb x z = true.
Proof.
  unfold SFltb, SFleb.
  destruct x as [[]|[]| |[] m1 e1], y as [[]|[]| |[] m2 e2], z as [[]|[]| |[] m3 e3];
    simpl; try reflexivity; try discriminate.
  all: change (Pos.compare_cont Eq) with Pos.compare.
  all: destruct (Z.compare_spec e1 e2); destruct (Z.compare_spec e2 e3);
       destruct (Z.compare_spec e1 e3); try lia; simpl; try reflexivity; try discriminate.
  all: destruct (Pos.compare_spec m1 m2); destruct (Pos.compare_spec m2 m3);
       destruct (Pos.compare_spec m1 m3); try lia; simpl; try reflexivity; try discriminate.
Qed.

Lemma SFleb_ltb_trans (x y z : spec_float) :
  SFleb x y = true -> SFltb y z = true -> SFltb x z = true.
Proof.
  unfold SFltb, SFleb.
  destruct x as [[]|[]| |[] m1 e1], y as [[]|[]| |[] m2 e2], z as [[]|[]| |[] m3 e3];
    simpl; try reflexivity; try discriminate.
  all: change (Pos.compare_cont Eq) with Pos.compare.
  all: destruct (Z.compare_spec e1 e2); destruct (Z.compare_spec e2 e3);
       destruct (Z.compare_spec e1 e3); try lia; simpl; try reflexivity; try discriminate.
  all: destruct (Pos.compare_spec m1 m2); destruct (Pos.compare_spec m2 m3);
       destruct (Pos.compare_spec m1 m3); try lia; simpl; try reflexivity; try discriminate.
Qed.

Lemma ltb_leb_trans (x y z : float) :
  (x <? y) = true -> (y <=? z) = true -> (x <? z) = true.
Proof. rewrite !ltb_spec, leb_spec. apply SFltb_leb_trans. Qed.

Lemma leb_ltb_trans (x y z : float) :
  (x <=? y) = true -> (y <? z) = true -> (x <? z) = true.
Proof. rewrite !ltb_spec, leb_spec. apply SFleb_ltb_trans. Qed.

(** A sample kept by a window is kept by every window around it. *)
Lemma kept_wider (start stop start' stop' t : float) :
  (start' <=? start) = true -> (stop <=? stop') = true ->
  kept start stop t = true -> kept start' stop' t = true.
Proof.
  intros Hs He. unfold kept. rewrite !negb_true_iff, !orb_false_iff.
  intros [H1 H2]. split.
  - destruct (t <? start') eqn:E; [|reflexivity].
    rewrite (ltb_leb_trans _ _ _ E Hs) in H1. discriminate H1.
  - destruct (stop' <? t) eqn:E; [|reflexivity].
    rewrite (leb_ltb_trans _ _ _ He E) in H2. discriminate H2.
Qed.

Lemma filter_filter_implied {A : Type} (f g : A -> bool) (l : list A) :
  (forall a, f a = true -> g a = true) ->
  filter f (filter g l) = filter f l.
Proof.
  intros H. induction l as [|a l IH]; simpl; [reflexivity|].
  destruct (g a) eqn:G; simpl.
  - rewrite IH. reflexivity.
  - destruct (f a) eqn:F; [|exact IH].
    rewrite (H a F) in G. discriminate G.
Qed.

(** X9.  What the script prints depends on the samples within the window
    only: two files whose Series agree on the samples the window keeps give
    the same baseline, the same corrected Peak Series, the same area and the
    same two printed lines, however they differ elsewhere. *)
Theorem printed_values_depend_on_window_only
  (start stop : float) (reader reader' : list (list string))
  (st0 st0' : state) :
  read_rows float_of_string reader init = Ok st0 ->
  read_rows float_of_string reader' init = Ok st0' ->
  window start stop (series st0) = window start stop (series st0') ->
  exists st st',
    run float_of_string float_str start stop reader = Ok st /\
    run float_of_string float_str start stop reader' = Ok st' /\
    baseline st = baseline st' /\
    peak_x_vals st = peak_x_vals st' /\ peak_y_vals st = peak_y_vals st' /\
    result st = result st' /\ stdout st = stdout st'.
Proof.
  intros H0 H0' W.
  pose proof (read_rows_loaded _ _ _ H0) as L.
  pose proof (read_rows_loaded _ _ _ H0') as L'.
  destruct (derive_peak_total start stop st0 L) as [st1 H1].
  destruct (derive_peak_total start stop st0' L') as [st1' H1'].
  destruct (derive_peak_loaded start stop st0 st1 L H1)
    as (Hpx & Hpy & Hb & _ & _ & _ & Ho & _).
  destruct (derive_peak_loaded start stop st0' st1' L' H1')
    as (Hpx' & Hpy' & Hb' & _ & _ & _ & Ho' & _).
  rewrite <- W in Hpx', Hpy', Hb'.
  exists (finish float_str st1), (finish float_str st1').
  split; [apply (run_spec _ _ _ _ _ _ _ H0 H1)|].
  split; [apply (run_spec _ _ _ _ _ _ _ H0' H1')|].
  unfold finish. simpl.
  rewrite Hpx, Hpy, Hb, Ho, Hpx', Hpy', Hb', Ho'.
  repeat split; reflexivity.
Qed.

(** X10.  Narrowing the window only drops samples: with bounds within the
    bounds of a wider window, the Peak Series is the Peak Series of the wider
    window filtered again by the narrower test, so each of its samples is a
    sample of the wider Peak Series. *)
Theorem narrower_window_keeps_fewer
  (start stop start' stop' : float) (reader : list (list string))
  (st0 : state) :
  read_rows float_of_string reader init = Ok st0 ->
  (start' <=? start) = true -> (stop <=? stop') = true ->
  exists st1 st1',
    derive_peak start stop st0 = Ok st1 /\
    derive_peak start' stop' st0 = Ok st1' /\
    peak_series st1 =
      filter (fun smp => kept start stop (fst smp)) (peak_series st1') /\
    (forall smp, In smp (peak_series st1) -> In smp (peak_series st1')) /\
    List.length (peak_series st1) <= List.length (peak_series st1').
Proof.
  intros H0 Hs He.
  pose proof (read_rows_loaded _ _ _ H0) as L.
  destruct (derive_peak_total start stop st0 L) as [st1 H1].
  destruct (derive_peak_total start' stop' st0 L) as [st1' H1'].
  destruct (derive_peak_loaded start stop st0 st1 L H1) as (Hpx & Hpy & _).
  destruct (derive_peak_loaded start' stop' st0 st1' L H1')
    as (Hpx' & Hpy' & _).
  exists st1, st1'.
  split; [exact H1|]. split; [exact H1'|].
  unfold peak_series.
  rewrite Hpx, Hpy, Hpx', Hpy', !combine_fst_snd.
  assert (E : window start stop (series st0) =
              filter (fun smp => kept start stop (fst smp))
                (window start' stop' (series st0))).
  { unfold window. symmetry. apply filter_filter_implied.
    intros [t s]. simpl. apply kept_wider; assumption. }
  split; [exact E|]. rewrite E. split.
  - intros smp Hin. apply filter_In in Hin. apply Hin.
  - apply filter_length_le.
Qed.

End Windows.

(** ** The further properties on concrete inputs *)

Section MoreExamples.

Local Open Scope float_scope.

Ltac rows_read :=
  repeat (first [ apply Forall2_nil
                | apply Forall2_cons;
                  [eexists; eexists; repeat split; reflexivity|] ]).

(** X2: the second row, whose one cell is no number, raises [ValueError]
    although the cell after it is missing. *)
Lemma bad_second_row_raises_ValueError :
  Forall2 (row_values read_float) [["0"; "5.0"]]%string [(0, 5)] /\
  row_fault read_float ["x"]%string = Some ValueError /\
  run read_float show_float PEAK_START_TIME PEAK_END_TIME bad_second_row
    = Raise ValueError.
Proof.
  split; [rows_read|]. split; [reflexivity|].
  change bad_second_row
    with ([["0"; "5.0"]%string] ++ ["x"%string] :: [["3"; "10.0"]%string]).
  apply (run_raises_at_first_bad_row read_float show_float
           PEAK_START_TIME PEAK_END_TIME
           [["0"; "5.0"]]%string [["3"; "10.0"]]%string [(0, 5)]
           ["x"]%string ValueError).
  - rows_read.
  - reflexivity.
Defined.

(** X3 on the fixture and the window of the script. *)
Lemma fixture_paired_samples :
  read_rows read_float fixture init = Ok fixture_loaded /\
  exists st1,
    derive_peak PEAK_START_TIME PEAK_END_TIME fixture_loaded = Ok st1 /\
    peak_series st1 =
      filter (fun smp => kept PEAK_START_TIME PEAK_END_TIME (fst smp))
        (series fixture_loaded) /\
    List.length (peak_x_vals st1) = List.length (peak_y_vals st1) /\
    List.length (peak_x_vals st1) <= List.length (x_vals fixture_loaded) /\
    forall (k : nat) (t s : float),
      nth_error (peak_x_vals st1) k = Some t ->
      nth_error (peak_y_vals st1) k = Some s ->
      In (t, s) (series fixture_loaded).
Proof.
  split; [reflexivity|].
  apply (peak_loop_keeps_paired_samples read_float
           PEAK_START_TIME PEAK_END_TIME fixture fixture_loaded).
  reflexivity.
Defined.

(** X4 on the two samples the first of which has a NaN signal: the baseline
    is the other signal. *)
Lemma nan_pair_baseline :
  read_rows read_float nan_pair_rows init = Ok nan_pair_loaded /\
  exists st1 st,
    derive_peak PEAK_START_TIME PEAK_END_TIME nan_pair_loaded = Ok st1 /\
    run read_float show_float PEAK_START_TIME PEAK_END_TIME nan_pair_rows
      = Ok st /\
    baseline st = baseline st1 /\
    is_nan (baseline st1) = false /\
    (baseline st1 = infinity \/ In (baseline st1) (peak_y_vals st1)) /\
    forall y, In y (peak_y_vals st1) -> is_nan y = false ->
              (baseline st1 <=? y) = true.
Proof.
  split; [reflexivity|].
  apply (baseline_is_never_nan read_float show_float
           PEAK_START_TIME PEAK_END_TIME nan_pair_rows nan_pair_loaded).
  reflexivity.
Defined.

(** X5 on the same rows. *)
Lemma nan_pair_corrected :
  read_rows read_float nan_pair_rows init = Ok nan_pair_loaded /\
  exists st,
    run read_float show_float PEAK_START_TIME PEAK_END_TIME nan_pair_rows
      = Ok st /\
    Forall not_below_zero (peak_y_vals st).
Proof.
  split; [reflexivity|].
  apply (corrected_signals_never_below_zero read_float show_float
           PEAK_START_TIME PEAK_END_TIME nan_pair_rows nan_pair_loaded).
  reflexivity.
Defined.

(** X6 on the fixture, whose times 0, 180, 360 ascend. *)
Lemma fixture_area_not_below_zero :
  read_rows read_float fixture init = Ok fixture_loaded /\
  ascending (x_vals fixture_loaded) /\
  exists st area,
    run read_float show_float 0 360 fixture = Ok st /\
    ascending (peak_x_vals st) /\
    result st = Some area /\ not_below_zero area.
Proof.
  split; [reflexivity|]. split; [repeat split; reflexivity|].
  apply (area_not_below_zero_for_ascending_times read_float show_float
           0 360 fixture fixture_loaded).
  - reflexivity.
  - repeat split; reflexivity.
Defined.

(** X7 on the fixture and the window of the script, which keeps the sample
    at 180 s alone. *)
Lemma fixture_lone_sample :
  read_rows read_float fixture init = Ok fixture_loaded /\
  derive_peak PEAK_START_TIME PEAK_END_TIME fixture_loaded
    = Ok fixture_script_peak /\
  List.length (peak_x_vals fixture_script_peak) <= 1 /\
  exists st,
    run read_float show_float PEAK_START_TIME PEAK_END_TIME fixture = Ok st /\
    result st = Some 0 /\
    nth_error (stdout st) 1 = Some ("Peak area: " ++ show_float 0)%string.
Proof.
  split; [reflexivity|]. split; [reflexivity|]. split; [apply le_n|].
  apply (lone_sample_has_no_area read_float show_float
           PEAK_START_TIME PEAK_END_TIME fixture
           fixture_loaded fixture_script_peak).
  - reflexivity.
  - reflexivity.
  - apply le_n.
Defined.

(** X8 on the two samples the first of which has a NaN signal. *)
Lemma nan_pair_area :
  read_rows read_float nan_pair_rows init = Ok nan_pair_loaded /\
  derive_peak PEAK_START_TIME PEAK_END_TIME nan_pair_loaded
    = Ok nan_pair_peak /\
  2 <= List.length (peak_x_vals nan_pair_peak) /\
  In nan (peak_y_vals nan_pair_peak) /\
  exists st,
    run read_float show_float PEAK_START_TIME PEAK_END_TIME nan_pair_rows
      = Ok st /\
    result st = Some nan.
Proof.
  split; [reflexivity|]. split; [reflexivity|]. split; [apply le_n|].
  split; [left; reflexivity|].
  apply (nan_in_peak_makes_area_nan read_float show_float
           PEAK_START_TIME PEAK_END_TIME nan_pair_rows
           nan_pair_loaded nan_pair_peak).
  - reflexivity.
  - reflexivity.
  - apply le_n.
  - right. left. reflexivity.
Defined.

(** X9 on the fixture and on its first two rows: the window of the script
    keeps the sample at 180 s of both. *)
Lemma fixture_and_its_first_rows_print_the_same :
  read_rows read_float fixture init = Ok fixture_loaded /\
  read_rows read_float one_kept_rows init = Ok one_kept_loaded /\
  window PEAK_START_TIME PEAK_END_TIME (series fixture_loaded) =
    window PEAK_START_TIME PEAK_END_TIME (series one_kept_loaded) /\
  exists st st',
    run read_float show_float PEAK_START_TIME PEAK_END_TIME fixture = Ok st /\
    run read_float show_float PEAK_START_TIME PEAK_END_TIME one_kept_rows
      = Ok st' /\
    baseline st = baseline st' /\
    peak_x_vals st = peak_x_vals st' /\ peak_y_vals st = peak_y_vals st' /\
    result st = result st' /\ stdout st = stdout st'.
Proof.
  split; [reflexivity|]. split; [reflexivity|]. split; [reflexivity|].
  apply (printed_values_depend_on_window_only read_float show_float
           PEAK_START_TIME PEAK_END_TIME fixture one_kept_rows
           fixture_loaded one_kept_loaded).
  - reflexivity.
  - reflexivity.
  - reflexivity.
Defined.

(** X10 on the fixture: the window of the script within the window from 0 s
    to 360 s. *)
Lemma fixture_narrower_window :
  read_rows read_float fixture init = Ok fixture_loaded /\
  (0 <=? PEAK_START_TIME) = true /\ (PEAK_END_TIME <=? 360) = true /\
  exists st1 st1',
    derive_peak PEAK_START_TIME PEAK_END_TIME fixture_loaded = Ok st1 /\
    derive_peak 0 360 fixture_loaded = Ok st1' /\
    peak_series st1 =
      filter (fun smp => kept PEAK_START_TIME PEAK_END_TIME (fst smp))
        (peak_series st1') /\
    (forall smp, In smp (peak_series st1) -> In smp (peak_series st1')) /\
    List.length (peak_series st1) <= List.length (peak_series st1').
Proof.
  split; [reflexivity|]. split; [reflexivity|]. split; [reflexivity|].
  apply (narrower_window_keeps_fewer read_float
           PEAK_START_TIME PEAK_END_TIME 0 360 fixture fixture_loaded).
  - reflexivity.
  - reflexivity.
  - reflexivity.
Defined.

End MoreExamples.
